(** * TDI Auto Trading dashboard: a shallow embedding of [main.js]

    The dashboard script keeps a handful of global variables, rewrites parts
    of the page and talks to the backend through [fetch].  The page (the
    globals, the parts of the DOM the script reads and writes, and the
    requests that are in flight) is one record; every function of the script
    is a function on that record.  A [fetch] is split where the script is
    split: the part that runs when the request is issued, and the handler that
    runs when the response settles.

    Numbers are IEEE doubles, each given by its exact value, a rational.
    A numeric field of a response is the number its JSON text writes; the
    script holds the nearest double ([JS.double]), and every difference,
    quotient and product of the script is rounded to the nearest double
    again.  A test against zero is made on the number as written, which
    has the sign of its double down to the smallest double.  Strings are
    byte strings; [toUpperCase] acts on the ASCII
    letters, which is what ticker symbols are made of. *)

From Stdlib Require Import QArith Qabs Qround Qpower DecimalString Lqa SpecFloat.
From stdpp Require Import gmap strings list.
Close Scope Q_scope.
Open Scope string_scope.
Open Scope list_scope.

(** ** JavaScript built-ins the script relies on *)
Module JS.

Definition upper_char (c : Ascii.ascii) : Ascii.ascii :=
  let n := Ascii.N_of_ascii c in
  if ((97 <=? n) && (n <=? 122))%N then Ascii.ascii_of_N (n - 32) else c.

Definition lower_char (c : Ascii.ascii) : Ascii.ascii :=
  let n := Ascii.N_of_ascii c in
  if ((65 <=? n) && (n <=? 90))%N then Ascii.ascii_of_N (n + 32) else c.

(** [String.prototype.toUpperCase] and [toLowerCase]. *)
Fixpoint toUpperCase (s : string) : string :=
  match s with
  | EmptyString => EmptyString
  | String c r => String (upper_char c) (toUpperCase r)
  end.

Fixpoint toLowerCase (s : string) : string :=
  match s with
  | EmptyString => EmptyString
  | String c r => String (lower_char c) (toLowerCase r)
  end.

(** [s.startsWith(q)]: [q] is read off the front of [s]. *)
Fixpoint startsWith (s q : string) {struct q} : bool :=
  match q, s with
  | EmptyString, _ => true
  | String _ _, EmptyString => false
  | String a q', String b s' => Ascii.eqb a b && startsWith s' q'
  end.

(** [s.includes(q)]: [q] starts at some position of [s]. *)
Fixpoint includes (s q : string) : bool :=
  startsWith s q ||
  match s with
  | EmptyString => false
  | String _ s' => includes s' q
  end.

(** [Array.prototype.includes] on an array of strings. *)
Definition arrayIncludes (l : list string) (x : string) : bool :=
  bool_decide (x ∈ l).

(** [Array.prototype.indexOf]; [None] is the script's [-1]. *)
Fixpoint indexOf (l : list string) (x : string) : option nat :=
  match l with
  | [] => None
  | y :: r => if String.eqb y x then Some 0 else S <$> indexOf r x
  end.

(** A double: a finite one, given by its exact value, an infinity, or
    NaN.  Zero stands for the positive zero, which is the zero every
    difference of two equal numbers and every count is. *)
Inductive number : Type :=
| Fin (q : Q)
| PosInfinity
| NegInfinity
| NaN.

(** The exponent of a positive rational: the [e] with [2^e <= a < 2^(e+1)]. *)
Definition ilog2 (a : Q) : Z :=
  let k := (Z.log2 (Qnum a) - Z.log2 (Z.pos (Qden a)))%Z in
  if Qle_bool (2 ^ k)%Q a then k else (k - 1)%Z.

(** The integer nearest to a rational that is not negative, the even one
    on a tie. *)
Definition roundHalfEven (x : Q) : Z :=
  let f := Qfloor x in
  match (x - inject_Z f ?= 1 # 2)%Q with
  | Lt => f
  | Gt => (f + 1)%Z
  | Eq => if Z.even f then f else (f + 1)%Z
  end.

(** Rounding to binary64: the multiple of [2^s] nearest to [q], where [s]
    leaves 53 bits to the mantissa and is at least -1074, the exponent of
    the subnormal numbers. *)
Definition nearest (q : Q) : Q :=
  let q := Qred q in
  if Qeq_bool q 0 then 0%Q
  else
    let a := Qabs q in
    let s := Z.max (ilog2 a - 52) (-1074) in
    let m := roundHalfEven (a / 2 ^ s)%Q in
    let r := Qred (inject_Z m * 2 ^ s)%Q in
    if Qlt_le_dec q 0 then (- r)%Q else r.

(** From here on a magnitude rounds to an infinity: half an ulp above the
    largest double. *)
Definition overflow : Q := inject_Z (2 ^ 1024 - 2 ^ 970).

(** The double the script holds for the rational [q]. *)
Definition double (q : Q) : number :=
  if Qle_bool overflow (Qabs q)
  then (if Qlt_le_dec q 0 then NegInfinity else PosInfinity)
  else Fin (nearest q).

(** [x - y], [x / y] and [x * y] on doubles: the exact result, rounded. *)
Definition sub (x y : number) : number :=
  match x, y with
  | NaN, _ | _, NaN => NaN
  | Fin a, Fin b => double (a - b)
  | Fin _, PosInfinity => NegInfinity
  | Fin _, NegInfinity => PosInfinity
  | PosInfinity, PosInfinity | NegInfinity, NegInfinity => NaN
  | PosInfinity, _ => PosInfinity
  | NegInfinity, _ => NegInfinity
  end.

Definition div (x y : number) : number :=
  match x, y with
  | NaN, _ | _, NaN => NaN
  | Fin a, Fin b =>
      if Qeq_bool b 0 then
        match (a ?= 0)%Q with
        | Gt => PosInfinity
        | Lt => NegInfinity
        | Eq => NaN
        end
      else double (a / b)
  | Fin _, _ => Fin 0
  | PosInfinity, Fin b => if Qlt_le_dec b 0 then NegInfinity else PosInfinity
  | NegInfinity, Fin b => if Qlt_le_dec b 0 then PosInfinity else NegInfinity
  | _, _ => NaN
  end.

Definition mul (x y : number) : number :=
  match x, y with
  | NaN, _ | _, NaN => NaN
  | Fin a, Fin b => double (a * b)
  | Fin a, PosInfinity | PosInfinity, Fin a =>
      match (a ?= 0)%Q with Gt => PosInfinity | Lt => NegInfinity | Eq => NaN end
  | Fin a, NegInfinity | NegInfinity, Fin a =>
      match (a ?= 0)%Q with Gt => NegInfinity | Lt => PosInfinity | Eq => NaN end
  | PosInfinity, PosInfinity | NegInfinity, NegInfinity => PosInfinity
  | _, _ => NegInfinity
  end.

(** [String(n)] for a non-negative integer. *)
Definition stringOfNat (n : nat) : string :=
  NilZero.string_of_uint (Nat.to_uint n).

Fixpoint zeros (n : nat) : string :=
  match n with
  | O => EmptyString
  | S k => "0" +:+ zeros k
  end.

(** [Number.prototype.toFixed(d)]: the sign, then the integer nearest to
    [|x| * 10^d] (the larger one on a tie) written with a decimal point
    before its last [d] digits.  This is the notation JavaScript uses for
    [|x|] below [10^21]; the values the dashboard prints are far below. *)
Definition toFixed (d : nat) (x : number) : string :=
  match x with
  | Fin q =>
      let n := Qfloor (Qabs q * inject_Z (10 ^ Z.of_nat d) + (1 # 2))%Q in
      let raw := NilZero.string_of_uint (N.to_uint (Z.to_N n)) in
      let digits := zeros (S d - String.length raw) +:+ raw in
      let k := (String.length digits - d)%nat in
      (if Qlt_le_dec q 0 then "-" else EmptyString) +:+
      String.substring 0 k digits +:+
      (if d is O then EmptyString else "." +:+ String.substring k d digits)
  | PosInfinity => "Infinity"
  | NegInfinity => "-Infinity"
  | NaN => "NaN"
  end.

(** Truthiness of the values the script tests with [!x] or [x ? _ : _]. *)
Definition truthyNumber (x : option Q) : bool :=
  match x with
  | Some q => negb (Qeq_bool q 0)
  | None => false
  end.

Definition truthyString (x : option string) : bool :=
  match x with
  | Some s => negb (String.eqb s EmptyString)
  | None => false
  end.

End JS.

(** ** The binary64 numbers of the Standard Library

    [SpecFloat] at precision 53 with exponents up to 1024 is IEEE
    binary64; the arithmetic of [JS] is compared with it below. *)
Module Binary64.

Definition ofZ (n : Z) : spec_float := binary_normalize 53 1024 n 0 false.

(** The value of a binary64 number. *)
Definition number (f : spec_float) : JS.number :=
  match f with
  | S754_zero _ => JS.Fin 0
  | S754_infinity negative => if negative then JS.NegInfinity else JS.PosInfinity
  | S754_nan => JS.NaN
  | S754_finite negative m e =>
      let r := Qred (inject_Z (Z.pos m) * 2 ^ e)%Q in
      JS.Fin (if negative then - r else r)%Q
  end.

Definition div (x y : spec_float) : spec_float := SFdiv 53 1024 x y.
Definition mul (x y : spec_float) : spec_float := SFmul 53 1024 x y.
Definition sub (x y : spec_float) : spec_float := SFsub 53 1024 x y.

(** Two finite numbers of the same value, or the same special number. *)
Definition same (x y : JS.number) : bool :=
  match x, y with
  | JS.Fin a, JS.Fin b => Qeq_bool a b
  | JS.PosInfinity, JS.PosInfinity | JS.NegInfinity, JS.NegInfinity
  | JS.NaN, JS.NaN => true
  | _, _ => false
  end.

(** The integers from [lo] on, [n] of them. *)
Definition range (lo : Z) (n : nat) : list Z := (fun k => (lo + Z.of_nat k)%Z) <$> seq 0 n.

End Binary64.

(** ** The data the backend sends (HTTP/JSON contract) *)

(** An epoch-milliseconds timestamp; how [Date] prints it depends on the
    locale of the browser and is left as the timestamp itself. *)
Definition timestamp := Z.

Record Stats := {
  total_trades : nat;
  win_rate : Q;
  avg_profit : Q;
  max_drawdown : Q
}.

(** A field that JSON may leave out or set to [null] is an [option]. *)
Record Position := {
  pos_symbol : string;
  position : option string;
  entry_price : option Q;
  position_size : option Q;
  stop_loss : option Q;
  take_profit_levels : option (list Q)
}.

Record PricePoint := { price_timestamp : timestamp; close : Q }.

Record TdiPoint := {
  tdi_timestamp : timestamp;
  rsi : Q;
  fast_line : Q;
  slow_line : Q;
  market_baseline : Q;
  upper_band : Q;
  lower_band : Q
}.

Record Trade := {
  entry_time : timestamp;
  exit_time : timestamp;
  direction : string;
  trade_entry_price : Q;
  exit_price : Q;
  trade_position_size : Q;
  pnl_pct : Q;
  exit_reason : string
}.

(** The body of [GET /api/performance/{symbol}]: a payload, or an object
    with an [error] field. *)
Record PerformanceBody := {
  error : option string;
  stats : option Stats;
  current_position : option Position;
  price_data : option (list PricePoint);
  tdi_data : option (list TdiPoint);
  trades : option (list Trade)
}.

(** The body of the three POST calls: [{success, action?, error?}].
    A missing [error] or [action] prints as [undefined]. *)
Record Ack := {
  success : bool;
  action : option string;
  ack_error : option string
}.

(** What a [fetch] followed by [response.json()] can come to: the transport
    fails, or a response arrives with a status and a body that parses as
    JSON ([Some]) or does not ([None]).  A body that parses has the shape
    the contract gives it, with the optional parts as [option]s. *)
Inductive FetchResult (A : Type) : Type :=
| NetworkError
| Response (status : nat) (body : option A).
Arguments NetworkError {A}.
Arguments Response {A} status body.

(** [response.ok]. *)
Definition ok (status : nat) : bool :=
  (200 <=? status)%nat && (status <=? 299)%nat.

(** ** The page *)

(** A Chart.js surface: the labels and the named series it was built from,
    and whether [destroy()] was called on it. *)
Record Chart := {
  labels : list timestamp;
  datasets : list (string * list Q);
  destroyed : bool
}.

Inductive available_node : Type :=
| NoSymbolsAvailable
| AvailableItem (symbol : string).

Inductive selected_node : Type :=
| NoSymbolsSelected
| SelectedItem (symbol : string).

(** The content of [#current-position]. *)
Inductive position_panel : Type :=
| PanelEmpty
| PanelLoading
| PanelNoPosition (symbol : string)
| PanelPosition (badge symbol entry size stop takeProfit riskReward : string)
| PanelError (errorMessage additionalInfo retrySymbol : string).

(** A row of [#trade-history]. *)
Inductive history_row : Type :=
| LoadingHistoryRow
| NoHistoryRow
| TradeRow (entryTime exitTime : timestamp)
           (directionText entryText exitText sizeText pnlClass pnlText reason : string).

Inductive control_type : Type :=
| Checkbox
| TextInput
| PasswordInput
| NumberInput
| SelectBox.

(** A control of [#config-form]. *)
Record control := {
  ctl_name : string;
  ctl_type : control_type;
  ctl_value : string;
  ctl_checked : bool;
  ctl_disabled : bool
}.

Definition FormData := list (string * string).

(** A request that was sent and has not settled. *)
Inductive request : Type :=
| GetConfig
| PostConfig (body : FormData)
| GetTradingSymbols
| PostTradingSymbols (symbols : list string)
| GetSymbols
| GetPerformance (symbol : string)
| PostRunStrategy (symbol : string).

Record Page := {
  (* globals *)
  priceChart : option Chart;
  tdiChart : option Chart;
  availableSymbols : list string;
  selectedSymbols : list string;
  currentSymbol : string;
  (* DOM *)
  text : gmap string string;
  availableList : list available_node;
  selectedList : list selected_node;
  symbolSearch : string;
  performanceSymbol : list string;
  currentPosition : position_panel;
  tradeHistory : list history_row;
  configForm : list control;
  alerts : list (string * string);
  loading : gset string;
  (* network *)
  inflight : list request
}.

(** Assignment to one component of the page. *)
Definition set_priceChart (v : option Chart) (p : Page) : Page :=
  {| priceChart := v; tdiChart := tdiChart p;
     availableSymbols := availableSymbols p;
     selectedSymbols := selectedSymbols p; currentSymbol := currentSymbol p;
     text := text p; availableList := availableList p;
     selectedList := selectedList p; symbolSearch := symbolSearch p;
     performanceSymbol := performanceSymbol p;
     currentPosition := currentPosition p; tradeHistory := tradeHistory p;
     configForm := configForm p; alerts := alerts p; loading := loading p;
     inflight := inflight p |}.

Definition set_tdiChart (v : option Chart) (p : Page) : Page :=
  {| priceChart := priceChart p; tdiChart := v;
     availableSymbols := availableSymbols p;
     selectedSymbols := selectedSymbols p; currentSymbol := currentSymbol p;
     text := text p; availableList := availableList p;
     selectedList := selectedList p; symbolSearch := symbolSearch p;
     performanceSymbol := performanceSymbol p;
     currentPosition := currentPosition p; tradeHistory := tradeHistory p;
     configForm := configForm p; alerts := alerts p; loading := loading p;
     inflight := inflight p |}.

Definition set_availableSymbols (v : list string) (p : Page) : Page :=
  {| priceChart := priceChart p; tdiChart := tdiChart p;
     availableSymbols := v; selectedSymbols := selectedSymbols p;
     currentSymbol := currentSymbol p; text := text p;
     availableList := availableList p; selectedList := selectedList p;
     symbolSearch := symbolSearch p;
     performanceSymbol := performanceSymbol p;
     currentPosition := currentPosition p; tradeHistory := tradeHistory p;
     configForm := configForm p; alerts := alerts p; loading := loading p;
     inflight := inflight p |}.

Definition set_selectedSymbols (v : list string) (p : Page) : Page :=
  {| priceChart := priceChart p; tdiChart := tdiChart p;
     availableSymbols := availableSymbols p; selectedSymbols := v;
     currentSymbol := currentSymbol p; text := text p;
     availableList := availableList p; selectedList := selectedList p;
     symbolSearch := symbolSearch p;
     performanceSymbol := performanceSymbol p;
     currentPosition := currentPosition p; tradeHistory := tradeHistory p;
     configForm := configForm p; alerts := alerts p; loading := loading p;
     inflight := inflight p |}.

Definition set_currentSymbol (v : string) (p : Page) : Page :=
  {| priceChart := priceChart p; tdiChart := tdiChart p;
     availableSymbols := availableSymbols p;
     selectedSymbols := selectedSymbols p; currentSymbol := v;
     text := text p; availableList := availableList p;
     selectedList := selectedList p; symbolSearch := symbolSearch p;
     performanceSymbol := performanceSymbol p;
     currentPosition := currentPosition p; tradeHistory := tradeHistory p;
     configForm := configForm p; alerts := alerts p; loading := loading p;
     inflight := inflight p |}.

Definition set_text (v : gmap string string) (p : Page) : Page :=
  {| priceChart := priceChart p; tdiChart := tdiChart p;
     availableSymbols := availableSymbols p;
     selectedSymbols := selectedSymbols p; currentSymbol := currentSymbol p;
     text := v; availableList := availableList p;
     selectedList := selectedList p; symbolSearch := symbolSearch p;
     performanceSymbol := performanceSymbol p;
     currentPosition := currentPosition p; tradeHistory := tradeHistory p;
     configForm := configForm p; alerts := alerts p; loading := loading p;
     inflight := inflight p |}.

Definition set_availableList (v : list available_node) (p : Page) : Page :=
  {| priceChart := priceChart p; tdiChart := tdiChart p;
     availableSymbols := availableSymbols p;
     selectedSymbols := selectedSymbols p; currentSymbol := currentSymbol p;
     text := text p; availableList := v; selectedList := selectedList p;
     symbolSearch := symbolSearch p;
     performanceSymbol := performanceSymbol p;
     currentPosition := currentPosition p; tradeHistory := tradeHistory p;
     configForm := configForm p; alerts := alerts p; loading := loading p;
     inflight := inflight p |}.

Definition set_selectedList (v : list selected_node) (p : Page) : Page :=
  {| priceChart := priceChart p; tdiChart := tdiChart p;
     availableSymbols := availableSymbols p;
     selectedSymbols := selectedSymbols p; currentSymbol := currentSymbol p;
     text := text p; availableList := availableList p; selectedList := v;
     symbolSearch := symbolSearch p;
     performanceSymbol := performanceSymbol p;
     currentPosition := currentPosition p; tradeHistory := tradeHistory p;
     configForm := configForm p; alerts := alerts p; loading := loading p;
     inflight := inflight p |}.

Definition set_symbolSearch (v : string) (p : Page) : Page :=
  {| priceChart := priceChart p; tdiChart := tdiChart p;
     availableSymbols := availableSymbols p;
     selectedSymbols := selectedSymbols p; currentSymbol := currentSymbol p;
     text := text p; availableList := availableList p;
     selectedList := selectedList p; symbolSearch := v;
     performanceSymbol := performanceSymbol p;
     currentPosition := currentPosition p; tradeHistory := tradeHistory p;
     configForm := configForm p; alerts := alerts p; loading := loading p;
     inflight := inflight p |}.

Definition set_performanceSymbol (v : list string) (p : Page) : Page :=
  {| priceChart := priceChart p; tdiChart := tdiChart p;
     availableSymbols := availableSymbols p;
     selectedSymbols := selectedSymbols p; currentSymbol := currentSymbol p;
     text := text p; availableList := availableList p;
     selectedList := selectedList p; symbolSearch := symbolSearch p;
     performanceSymbol := v; currentPosition := currentPosition p;
     tradeHistory := tradeHistory p; configForm := configForm p;
     alerts := alerts p; loading := loading p; inflight := inflight p |}.

Definition set_currentPosition (v : position_panel) (p : Page) : Page :=
  {| priceChart := priceChart p; tdiChart := tdiChart p;
     availableSymbols := availableSymbols p;
     selectedSymbols := selectedSymbols p; currentSymbol := currentSymbol p;
     text := text p; availableList := availableList p;
     selectedList := selectedList p; symbolSearch := symbolSearch p;
     performanceSymbol := performanceSymbol p; currentPosition := v;
     tradeHistory := tradeHistory p; configForm := configForm p;
     alerts := alerts p; loading := loading p; inflight := inflight p |}.

Definition set_tradeHistory (v : list history_row) (p : Page) : Page :=
  {| priceChart := priceChart p; tdiChart := tdiChart p;
     availableSymbols := availableSymbols p;
     selectedSymbols := selectedSymbols p; currentSymbol := currentSymbol p;
     text := text p; availableList := availableList p;
     selectedList := selectedList p; symbolSearch := symbolSearch p;
     performanceSymbol := performanceSymbol p;
     currentPosition := currentPosition p; tradeHistory := v;
     configForm := configForm p; alerts := alerts p; loading := loading p;
     inflight := inflight p |}.

Definition set_configForm (v : list control) (p : Page) : Page :=
  {| priceChart := priceChart p; tdiChart := tdiChart p;
     availableSymbols := availableSymbols p;
     selectedSymbols := selectedSymbols p; currentSymbol := currentSymbol p;
     text := text p; availableList := availableList p;
     selectedList := selectedList p; symbolSearch := symbolSearch p;
     performanceSymbol := performanceSymbol p;
     currentPosition := currentPosition p; tradeHistory := tradeHistory p;
     configForm := v; alerts := alerts p; loading := loading p;
     inflight := inflight p |}.

Definition set_alerts (v : list (string * string)) (p : Page) : Page :=
  {| priceChart := priceChart p; tdiChart := tdiChart p;
     availableSymbols := availableSymbols p;
     selectedSymbols := selectedSymbols p; currentSymbol := currentSymbol p;
     text := text p; availableList := availableList p;
     selectedList := selectedList p; symbolSearch := symbolSearch p;
     performanceSymbol := performanceSymbol p;
     currentPosition := currentPosition p; tradeHistory := tradeHistory p;
     configForm := configForm p; alerts := v; loading := loading p;
     inflight := inflight p |}.

Definition set_loading (v : gset string) (p : Page) : Page :=
  {| priceChart := priceChart p; tdiChart := tdiChart p;
     availableSymbols := availableSymbols p;
     selectedSymbols := selectedSymbols p; currentSymbol := currentSymbol p;
     text := text p; availableList := availableList p;
     selectedList := selectedList p; symbolSearch := symbolSearch p;
     performanceSymbol := performanceSymbol p;
     currentPosition := currentPosition p; tradeHistory := tradeHistory p;
     configForm := configForm p; alerts := alerts p; loading := v;
     inflight := inflight p |}.

Definition set_inflight (v : list request) (p : Page) : Page :=
  {| priceChart := priceChart p; tdiChart := tdiChart p;
     availableSymbols := availableSymbols p;
     selectedSymbols := selectedSymbols p; currentSymbol := currentSymbol p;
     text := text p; availableList := availableList p;
     selectedList := selectedList p; symbolSearch := symbolSearch p;
     performanceSymbol := performanceSymbol p;
     currentPosition := currentPosition p; tradeHistory := tradeHistory p;
     configForm := configForm p; alerts := alerts p; loading := loading p;
     inflight := v |}.

(** ** NotificationCenter and DOM helpers *)

(** [document.getElementById(id).textContent = v]. *)
Definition setText (id v : string) (p : Page) : Page :=
  set_text (<[id := v]> (text p)) p.

(** [fetch(...)]: the request is sent; its handlers run when it settles. *)
Definition fetch (r : request) (p : Page) : Page :=
  set_inflight (inflight p ++ [r]) p.

(** [showLoading] and [hideLoading] put the [loading-container] class on
    a region and take it off; both do nothing the second time.  The
    spinner element that comes and goes with the class is left out. *)
Definition showLoading (elementId : string) (p : Page) : Page :=
  set_loading (loading p ∪ {[elementId]}) p.

Definition hideLoading (elementId : string) (p : Page) : Page :=
  set_loading (loading p ∖ {[elementId]}) p.

(** [showAlert(message, type)]: a toast is appended to the alert container
    (its timed removal is not part of the model). *)
Definition showAlert (message type : string) (p : Page) : Page :=
  set_alerts (alerts p ++ [(message, type)]) p.

(** How a template literal prints a field that may be missing. *)
Definition printed (x : option string) : string := default "undefined" x.

(** ** SymbolSetManager *)

Definition updateDashboardStats (p : Page) : Page :=
  let p := setText "active-symbols-count"
             (JS.stringOfNat (length (selectedSymbols p))) p in
  let p := setText "open-positions-count" "0" p in
  let p := setText "total-trades-count" "0" p in
  setText "win-rate" "0%" p.

(** [updateAvailableSymbolsList(symbols)]: the container is emptied and
    refilled, with a placeholder when there is nothing to show. *)
Definition updateAvailableSymbolsList (symbols : list string) (p : Page) : Page :=
  if (length symbols =? 0)%nat then set_availableList [NoSymbolsAvailable] p
  else set_availableList (AvailableItem <$> symbols) p.

(** [updateSelectedSymbolsList()]: with an empty selection the function
    returns after the placeholder, before the count is written. *)
Definition updateSelectedSymbolsList (p : Page) : Page :=
  if (length (selectedSymbols p) =? 0)%nat then
    set_selectedList [NoSymbolsSelected] p
  else
    let p := set_selectedList (SelectedItem <$> selectedSymbols p) p in
    setText "active-symbols-count"
      (JS.stringOfNat (length (selectedSymbols p))) p.

(** [filterSymbols(query)]. *)
Definition filterSymbols (query : string) (p : Page) : Page :=
  let query := JS.toUpperCase query in
  let filteredSymbols :=
    List.filter
      (fun symbol => negb (JS.arrayIncludes (selectedSymbols p) symbol)
                     && JS.includes symbol query)
      (availableSymbols p) in
  updateAvailableSymbolsList filteredSymbols p.

(** The click listener of an item of the available list (select). *)
Definition onAvailableItemClick (i : nat) (symbol : string) (p : Page) : Page :=
  if negb (JS.arrayIncludes (selectedSymbols p) symbol) then
    let p := set_selectedSymbols (selectedSymbols p ++ [symbol]) p in
    let p := set_availableList (delete i (availableList p)) p in
    updateSelectedSymbolsList p
  else p.

(** The click listener of the remove button of a selected item (deselect). *)
Definition onRemoveButtonClick (symbol : string) (p : Page) : Page :=
  let p :=
    match JS.indexOf (selectedSymbols p) symbol with
    | Some index => set_selectedSymbols (delete index (selectedSymbols p)) p
    | None => p
    end in
  let p := updateSelectedSymbolsList p in
  let p :=
    if negb (JS.arrayIncludes (availableSymbols p) symbol)
    then set_availableSymbols (availableSymbols p ++ [symbol]) p
    else p in
  filterSymbols (symbolSearch p) p.

(** [loadAvailableSymbols()] and the two ends of its promise chain. *)
Definition loadAvailableSymbols (p : Page) : Page :=
  fetch GetSymbols (showLoading "available-symbols" p).

Definition loadAvailableSymbols_settled (r : FetchResult (list string)) (p : Page) : Page :=
  match r with
  | Response _ (Some data) =>
      let p := set_availableSymbols data p in
      let filteredSymbols :=
        List.filter
          (fun symbol => negb (JS.arrayIncludes (selectedSymbols p) symbol))
          (availableSymbols p) in
      let p := updateAvailableSymbolsList filteredSymbols p in
      hideLoading "available-symbols" p
  | _ =>
      let p := hideLoading "available-symbols" p in
      showAlert "Failed to load available symbols. Please try again." "danger" p
  end.

(** [loadTradingSymbols()]. *)
Definition loadTradingSymbols (p : Page) : Page :=
  fetch GetTradingSymbols p.

Definition loadTradingSymbols_settled (r : FetchResult (list string)) (p : Page) : Page :=
  match r with
  | Response _ (Some data) =>
      let p := set_selectedSymbols data p in
      let p := updateSelectedSymbolsList p in
      let p := set_performanceSymbol data p in
      loadAvailableSymbols p
  | _ =>
      showAlert "Failed to load trading symbols. Please try again." "danger" p
  end.

(** [saveSelectedSymbols()]: the body is serialized when the request is
    sent; the chooser is rebuilt from the selection as it is when the
    response settles. *)
Definition saveSelectedSymbols (p : Page) : Page :=
  let p := showLoading "selected-symbols" p in
  fetch (PostTradingSymbols (selectedSymbols p)) p.

Definition saveSelectedSymbols_settled (r : FetchResult Ack) (p : Page) : Page :=
  match r with
  | Response _ (Some data) =>
      let p := hideLoading "selected-symbols" p in
      if success data then
        let p := showAlert "Trading symbols saved successfully!" "success" p in
        let p := set_performanceSymbol (selectedSymbols p) p in
        updateDashboardStats p
      else
        showAlert ("Failed to save trading symbols: " +:+ printed (ack_error data))
          "danger" p
  | _ =>
      let p := hideLoading "selected-symbols" p in
      showAlert "Failed to save trading symbols. Please try again." "danger" p
  end.

(** ** ConfigSync *)

Definition isCheckbox (c : control) : bool :=
  match ctl_type c with
  | Checkbox => true
  | _ => false
  end.

Definition set_ctl_checked (b : bool) (c : control) : control :=
  {| ctl_name := ctl_name c; ctl_type := ctl_type c; ctl_value := ctl_value c;
     ctl_checked := b; ctl_disabled := ctl_disabled c |}.

Definition set_ctl_value (v : string) (c : control) : control :=
  {| ctl_name := ctl_name c; ctl_type := ctl_type c; ctl_value := v;
     ctl_checked := ctl_checked c; ctl_disabled := ctl_disabled c |}.

(** The body of the loop of [loadConfig] for one entry of the response.
    [form.elements[key]] is a control when exactly one control carries the
    name; with none the entry is skipped, and with several it is a node
    list, whose [value] only drives radio buttons, which the form lacks.
    The assignment [element.value = value] is taken for a value the
    control keeps: a number input given a text that is no number, a select
    given a value that is none of its options and a text input given a
    line break end with another value than the one assigned, which this
    function does not follow. *)
Definition fillControl (value : string) (element : control) : control :=
  if isCheckbox element
  then set_ctl_checked (String.eqb (JS.toLowerCase value) "true") element
  else set_ctl_value value element.

Definition fillEntry (form : list control) (entry : string * string) : list control :=
  let '(key, value) := entry in
  if (length (List.filter (fun c => String.eqb (ctl_name c) key) form) =? 1)%nat
  then (fun c => if String.eqb (ctl_name c) key then fillControl value c else c) <$> form
  else form.

Definition loadConfig (p : Page) : Page :=
  fetch GetConfig (showLoading "config-form" p).

Definition loadConfig_settled (r : FetchResult (list (string * string))) (p : Page) : Page :=
  match r with
  | Response _ (Some data) =>
      let p := set_configForm (fold_left fillEntry data (configForm p)) p in
      hideLoading "config-form" p
  | _ =>
      let p := hideLoading "config-form" p in
      showAlert "Failed to load configuration. Please try again." "danger" p
  end.

(** [new FormData(form)]: the entry list of the form.  A control is left
    out when it is disabled, when it has no name, and when it is a checkbox
    that is not checked.  A select is taken with an option selected; one
    without has no entry, which this function does not follow. *)
Definition newFormData (form : list control) : FormData :=
  omap (fun c =>
          if ctl_disabled c || String.eqb (ctl_name c) EmptyString
             || (isCheckbox c && negb (ctl_checked c))
          then None
          else Some (ctl_name c, ctl_value c)) form.

(** [formData.set(name, value)]: the first entry of that name takes the
    value and the later ones go; with no such entry one is appended. *)
Fixpoint formDataSet (name value : string) (fd : FormData) : FormData :=
  match fd with
  | [] => [(name, value)]
  | (k, v) :: rest =>
      if String.eqb k name
      then (name, value) :: List.filter (fun e => negb (String.eqb (fst e) name)) rest
      else (k, v) :: formDataSet name value rest
  end.

(** [formData.getAll(name)]. *)
Definition formDataGetAll (name : string) (fd : FormData) : list string :=
  snd <$> List.filter (fun e => String.eqb (fst e) name) fd.

(** The callback of [checkboxes.forEach] in [saveConfig]. *)
Definition forceUnchecked (formData : FormData) (checkbox : control) : FormData :=
  if negb (ctl_checked checkbox)
  then formDataSet (ctl_name checkbox) "False" formData
  else formData.

(** The form data [saveConfig] builds before it sends it. *)
Definition configFormData (form : list control) : FormData :=
  fold_left forceUnchecked (List.filter isCheckbox form) (newFormData form).

Definition saveConfig (p : Page) : Page :=
  let p := showLoading "config-form" p in
  fetch (PostConfig (configFormData (configForm p))) p.

Definition saveConfig_settled (r : FetchResult Ack) (p : Page) : Page :=
  match r with
  | Response _ (Some data) =>
      let p := hideLoading "config-form" p in
      if success data then
        let p := showAlert "Configuration saved successfully!" "success" p in
        let p := loadTradingSymbols p in
        updateDashboardStats p
      else
        showAlert ("Failed to save configuration: " +:+ printed (ack_error data))
          "danger" p
  | _ =>
      let p := hideLoading "config-form" p in
      showAlert "Failed to save configuration. Please try again." "danger" p
  end.

(** ** PositionRenderer and TradeHistoryRenderer *)

(** A handler body that may throw: the page as it is when the body ends or
    throws, and which of the two happened. *)
Inductive completion : Type :=
| Normal
| Thrown.

Definition Script := Page -> Page * completion.

Definition run (f : Page -> Page) : Script := fun p => (f p, Normal).

Definition throw : Script := fun p => (p, Thrown).

Definition andThen (a b : Script) : Script :=
  fun p =>
    match a p with
    | (p', Normal) => b p'
    | (p', Thrown) => (p', Thrown)
    end.

Notation "a ;;; b" := (andThen a b) (at level 100, b at level 200, right associativity).

(** [.then(body).catch(handler)] once the promise before them is fulfilled. *)
Definition thenCatch (body : Script) (handler : Page -> Page) (p : Page) : Page :=
  match body p with
  | (p', Normal) => p'
  | (p', Thrown) => handler p'
  end.

(** [`${(x * 100).toFixed(2)}%`]. *)
Definition percent (q : Q) : string :=
  JS.toFixed 2 (JS.mul (JS.double q) (JS.Fin 100)) +:+ "%".

Definition writeStats (stats : Stats) (p : Page) : Page :=
  let p := setText "symbol-total-trades" (JS.stringOfNat (total_trades stats)) p in
  let p := setText "symbol-win-rate" (percent (win_rate stats)) p in
  let p := setText "symbol-avg-profit" (percent (avg_profit stats)) p in
  setText "symbol-max-drawdown" (percent (max_drawdown stats)) p.

(** [updatePerformanceStats(stats)]; reading a field of a missing [stats]
    throws before anything is written. *)
Definition updatePerformanceStats (stats : option Stats) : Script :=
  match stats with
  | None => throw
  | Some stats => run (writeStats stats)
  end.

(** [calculateRiskReward(position)]. *)
Definition calculateRiskReward (pos : Position) : string :=
  if negb (JS.truthyString (position pos))
     || negb (JS.truthyNumber (entry_price pos))
     || negb (JS.truthyNumber (stop_loss pos))
     || negb (bool_decide (is_Some (take_profit_levels pos)))
     || (length (default [] (take_profit_levels pos)) =? 0)%nat
  then "N/A"
  else
    let entryPrice := JS.double (default 0%Q (entry_price pos)) in
    let stopLoss := JS.double (default 0%Q (stop_loss pos)) in
    let takeProfit :=
      JS.double (default 0%Q (head (default [] (take_profit_levels pos)))) in
    if String.eqb (default EmptyString (position pos)) "long" then
      let risk := JS.sub entryPrice stopLoss in
      let reward := JS.sub takeProfit entryPrice in
      JS.toFixed 2 (JS.div reward risk)
    else
      let risk := JS.sub stopLoss entryPrice in
      let reward := JS.sub entryPrice takeProfit in
      JS.toFixed 2 (JS.div reward risk).

Definition fixedOrNA (d : nat) (x : option Q) : string :=
  if JS.truthyNumber x then JS.toFixed d (JS.double (default 0%Q x)) else "N/A".

(** The markup [updateCurrentPosition] writes for a position. *)
Definition positionPanel (pos : Position) : position_panel :=
  if negb (JS.truthyString (position pos)) then PanelNoPosition (pos_symbol pos)
  else
    let positionType :=
      if String.eqb (default EmptyString (position pos)) "long"
      then "Long" else "Short" in
    PanelPosition positionType (pos_symbol pos)
      (fixedOrNA 2 (entry_price pos))
      (fixedOrNA 6 (position_size pos))
      (fixedOrNA 2 (stop_loss pos))
      (match take_profit_levels pos with
       | Some (first :: _) => JS.toFixed 2 (JS.double first)
       | _ => "N/A"
       end)
      (calculateRiskReward pos).

(** [updateCurrentPosition(position)]; a missing [position] throws at
    the first field read. *)
Definition updateCurrentPosition (pos : option Position) : Script :=
  match pos with
  | None => throw
  | Some pos => run (set_currentPosition (positionPanel pos))
  end.

Definition destroy (c : Chart) : Chart :=
  {| labels := labels c; datasets := datasets c; destroyed := true |}.

Definition priceChartOf (priceData : list PricePoint) : Chart :=
  {| labels := price_timestamp <$> priceData;
     datasets := [("Price", close <$> priceData)];
     destroyed := false |}.

Definition tdiChartOf (tdiData : list TdiPoint) : Chart :=
  {| labels := tdi_timestamp <$> tdiData;
     datasets := [("RSI", rsi <$> tdiData);
                  ("Fast Line", fast_line <$> tdiData);
                  ("Slow Line", slow_line <$> tdiData);
                  ("Market Baseline", market_baseline <$> tdiData);
                  ("Upper Band", upper_band <$> tdiData);
                  ("Lower Band", lower_band <$> tdiData)];
     destroyed := false |}.

(** [updatePriceChart(priceData)]: the old surface is destroyed first; a
    missing series throws after that. *)
Definition updatePriceChart (priceData : option (list PricePoint)) : Script :=
  fun p =>
    let p := set_priceChart (destroy <$> priceChart p) p in
    match priceData with
    | None => (p, Thrown)
    | Some priceData => (set_priceChart (Some (priceChartOf priceData)) p, Normal)
    end.

(** [updateTDIChart(tdiData)]. *)
Definition updateTDIChart (tdiData : option (list TdiPoint)) : Script :=
  fun p =>
    let p := set_tdiChart (destroy <$> tdiChart p) p in
    match tdiData with
    | None => (p, Thrown)
    | Some tdiData => (set_tdiChart (Some (tdiChartOf tdiData)) p, Normal)
    end.

Definition tradeRow (trade : Trade) : history_row :=
  let pnlClass := if Qle_bool 0 (pnl_pct trade) then "text-success" else "text-danger" in
  let pnlText := percent (pnl_pct trade) in
  TradeRow (entry_time trade) (exit_time trade)
    (if String.eqb (direction trade) "long" then "Long" else "Short")
    (JS.toFixed 2 (JS.double (trade_entry_price trade)))
    (JS.toFixed 2 (JS.double (exit_price trade)))
    (JS.toFixed 6 (JS.double (trade_position_size trade)))
    pnlClass pnlText (exit_reason trade).

(** [t.pnl_pct > 0]. *)
Definition isWinning (t : Trade) : bool := negb (Qle_bool (pnl_pct t) 0).

(** The [length] of an array as a number: an integer below [2^32], which
    is a double as it stands. *)
Definition numberOfNat (n : nat) : Q := inject_Z (Z.of_nat n).

(** [updateTradeHistory(trades)]. *)
Definition updateTradeHistory (trades : option (list Trade)) (p : Page) : Page :=
  if negb (bool_decide (is_Some trades)) || (length (default [] trades) =? 0)%nat then
    set_tradeHistory [NoHistoryRow] p
  else
    let trades := default [] trades in
    let p := set_tradeHistory (tradeRow <$> trades) p in
    let p := setText "total-trades-count" (JS.stringOfNat (length trades)) p in
    let winningTrades := List.filter isWinning trades in
    let winRate :=
      JS.mul (JS.div (JS.Fin (numberOfNat (length winningTrades)))
                     (JS.Fin (numberOfNat (length trades))))
             (JS.Fin 100) in
    setText "win-rate" (JS.toFixed 2 winRate +:+ "%") p.

(** ** PerformancePipeline *)

Definition genericInfo : string :=
  "This may happen if you've just added this trading pair. Please wait a few minutes for data to be collected, then try again.".

Definition connectivityInfo : string :=
  "There seems to be an issue with the Binance API connection. Please check your API keys in the configuration and ensure they have the correct permissions.".

(** The part of [loadPerformanceData(symbol)] that runs at once. *)
Definition loadPerformanceData (symbol : string) (p : Page) : Page :=
  let p := showLoading "performance-stats" p in
  let p := setText "symbol-total-trades" "0" p in
  let p := setText "symbol-win-rate" "0%" p in
  let p := setText "symbol-avg-profit" "0%" p in
  let p := setText "symbol-max-drawdown" "0%" p in
  let p := set_currentPosition PanelLoading p in
  let p := set_tradeHistory [LoadingHistoryRow] p in
  fetch (GetPerformance symbol) p.

(** The branch of the second [then] taken when [data.error] is truthy. *)
Definition showPerformanceError (symbol error : string) (p : Page) : Page :=
  let p := showAlert ("Failed to load performance data: " +:+ error) "danger" p in
  let errorMessage := error in
  let additionalInfo :=
    if JS.includes error "Binance client is not initialized"
       || JS.includes error "API keys"
       || JS.includes error "'NoneType' object has no attribute 'get_historical_klines'"
    then connectivityInfo
    else genericInfo in
  let p := set_currentPosition (PanelError errorMessage additionalInfo symbol) p in
  let p := if priceChart p is Some _ then set_priceChart None p else p in
  if tdiChart p is Some _ then set_tdiChart None p else p.

(** The second [then] of the chain: [data => { ... }]. *)
Definition loadPerformanceData_then (symbol : string) (data : PerformanceBody) : Script :=
  run (hideLoading "performance-stats") ;;;
  if JS.truthyString (error data) then
    run (showPerformanceError symbol (default EmptyString (error data)))
  else
    updatePerformanceStats (stats data) ;;;
    updateCurrentPosition (current_position data) ;;;
    updatePriceChart (price_data data) ;;;
    updateTDIChart (tdi_data data) ;;;
    run (updateTradeHistory (trades data)).

(** The [catch] of the chain. *)
Definition loadPerformanceData_catch (symbol : string) (p : Page) : Page :=
  let p := hideLoading "performance-stats" p in
  let p := showAlert "Failed to load performance data. Please try again." "danger" p in
  set_currentPosition
    (PanelError "An unexpected error occurred while loading performance data."
       genericInfo symbol) p.

(** The whole chain once the request settles: the first [then] throws on
    a status that is not [ok], [response.json()] rejects on a body that
    does not parse, and both land in the [catch]. *)
Definition loadPerformanceData_settled
    (symbol : string) (r : FetchResult PerformanceBody) (p : Page) : Page :=
  match r with
  | NetworkError => loadPerformanceData_catch symbol p
  | Response status body =>
      if negb (ok status) then loadPerformanceData_catch symbol p
      else
        match body with
        | None => loadPerformanceData_catch symbol p
        | Some data =>
            thenCatch (loadPerformanceData_then symbol data)
                      (loadPerformanceData_catch symbol) p
        end
  end.

(** [runStrategy(symbol)]. *)
Definition runStrategy (symbol : string) (p : Page) : Page :=
  fetch (PostRunStrategy symbol) (showLoading "run-strategy" p).

Definition runStrategy_settled (symbol : string) (r : FetchResult Ack) (p : Page) : Page :=
  match r with
  | Response _ (Some data) =>
      let p := hideLoading "run-strategy" p in
      if success data then
        let p := showAlert ("Strategy executed successfully! Action: "
                            +:+ printed (action data)) "success" p in
        loadPerformanceData symbol p
      else
        showAlert ("Failed to run strategy: " +:+ printed (ack_error data)) "danger" p
  | _ =>
      let p := hideLoading "run-strategy" p in
      showAlert "Failed to run strategy. Please try again." "danger" p
  end.

(** ** The event loop *)

(** The body a settled request carries, by the kind of call. *)
Inductive reply : Type :=
| ConfigReply (r : FetchResult (list (string * string)))
| SymbolsReply (r : FetchResult (list string))
| AckReply (r : FetchResult Ack)
| PerformanceReply (r : FetchResult PerformanceBody).

(** The button of an error panel carries its handler as text, the call
    [loadPerformanceData('${symbol}')] inside a double-quoted attribute.
    The text is that call, with [symbol] as its argument, when no
    character of [symbol] ends the attribute or the string literal or
    starts an escape or a character reference: no NUL, line feed,
    carriage return, double quote, ampersand, single quote or backslash.
    (The error text before the button is taken as text, as in the panel
    itself.) *)
Definition splicedChar (c : Ascii.ascii) : bool :=
  let n := Ascii.N_of_ascii c in
  negb ((n =? 0) || (n =? 10) || (n =? 13) || (n =? 34) || (n =? 38) || (n =? 39)
        || (n =? 92))%N.

Fixpoint splicedVerbatim (symbol : string) : bool :=
  match symbol with
  | EmptyString => true
  | String c rest => splicedChar c && splicedVerbatim rest
  end.

(** What can happen to the page: the listeners of [initEventListeners], of
    the two symbol lists and of the retry button of an error panel, and the
    settling of a request in flight. *)
Inductive event : Type :=
| SubmitConfig
| InputSearch (value : string)
| ClickRefreshSymbols
| ClickSaveSymbols
| ChangePerformanceSymbol (value : string)
| ClickRefreshPerformance
| ClickRunStrategy
| ClickTryAgain
| ClickAvailable (i : nat)
| ClickRemove (i : nat)
| Settle (i : nat) (r : reply).

Definition settle (i : nat) (r : reply) (p : Page) : Page :=
  match inflight p !! i with
  | None => p
  | Some req =>
      let q := set_inflight (delete i (inflight p)) p in
      match req, r with
      | GetConfig, ConfigReply r => loadConfig_settled r q
      | PostConfig _, AckReply r => saveConfig_settled r q
      | GetTradingSymbols, SymbolsReply r => loadTradingSymbols_settled r q
      | PostTradingSymbols _, AckReply r => saveSelectedSymbols_settled r q
      | GetSymbols, SymbolsReply r => loadAvailableSymbols_settled r q
      | GetPerformance symbol, PerformanceReply r => loadPerformanceData_settled symbol r q
      | PostRunStrategy symbol, AckReply r => runStrategy_settled symbol r q
      | _, _ => p
      end
  end.

Definition step (e : event) (p : Page) : Page :=
  match e with
  | SubmitConfig => saveConfig p
  | InputSearch value => filterSymbols value (set_symbolSearch value p)
  | ClickRefreshSymbols => loadAvailableSymbols p
  | ClickSaveSymbols => saveSelectedSymbols p
  | ChangePerformanceSymbol value =>
      let p := set_currentSymbol value p in
      if negb (String.eqb (currentSymbol p) EmptyString)
      then loadPerformanceData (currentSymbol p) p else p
  | ClickRefreshPerformance =>
      if negb (String.eqb (currentSymbol p) EmptyString)
      then loadPerformanceData (currentSymbol p) p else p
  | ClickRunStrategy =>
      if negb (String.eqb (currentSymbol p) EmptyString)
      then runStrategy (currentSymbol p) p else p
  | ClickTryAgain =>
      match currentPosition p with
      | PanelError _ _ symbol =>
          if splicedVerbatim symbol then loadPerformanceData symbol p else p
      | _ => p
      end
  | ClickAvailable i =>
      match availableList p !! i with
      | Some (AvailableItem symbol) => onAvailableItemClick i symbol p
      | _ => p
      end
  | ClickRemove i =>
      match selectedList p !! i with
      | Some (SelectedItem symbol) => onRemoveButtonClick symbol p
      | _ => p
      end
  | Settle i r => settle i r p
  end.

Definition steps (es : list event) (p : Page) : Page :=
  fold_left (fun p e => step e p) es p.

(** The page as served, and the [DOMContentLoaded] listener. *)
Definition servedPage (form : list control) : Page :=
  {| priceChart := None; tdiChart := None;
     availableSymbols := []; selectedSymbols := []; currentSymbol := EmptyString;
     text := ∅; availableList := []; selectedList := [];
     symbolSearch := EmptyString; performanceSymbol := [];
     currentPosition := PanelEmpty; tradeHistory := [];
     configForm := form; alerts := []; loading := ∅; inflight := [] |}.

Definition onDOMContentLoaded (p : Page) : Page :=
  updateDashboardStats (loadTradingSymbols (loadConfig p)).

(** The symbols an available list shows. *)
Definition shownAvailable (p : Page) : list string :=
  omap (fun n => if n is AvailableItem s then Some s else None) (availableList p).

(** * Vocabulary of the properties *)

(** [q] occurs in [s], at any position. *)
Definition isSubstring (q s : string) : Prop :=
  ∃ pre post, s = pre +:+ q +:+ post.

(** [Kept P l r]: [r] is made of the elements of [l] that satisfy [P], each
    as often as in [l] and in the order of [l]. *)
Inductive Kept {A : Type} (P : A → Prop) : list A → list A → Prop :=
| Kept_nil : Kept P [] []
| Kept_take x l r : P x → Kept P l r → Kept P (x :: l) (x :: r)
| Kept_drop x l r : ¬ P x → Kept P l r → Kept P (x :: l) r.

Definition disjointLists (l k : list string) : Prop := ∀ s, s ∈ l → s ∉ k.

(** The three operations on the symbol sets, as the user performs them: a
    click on the [i]-th entry of the available list, a click on the remove
    button of the [i]-th selected entry, and typing in the search box. *)
Inductive symbolOp : Type :=
| Select (i : nat)
| Deselect (i : nat)
| Filter (query : string).

Definition eventOf (o : symbolOp) : event :=
  match o with
  | Select i => ClickAvailable i
  | Deselect i => ClickRemove i
  | Filter query => InputSearch query
  end.

Definition isDeselect (o : symbolOp) : bool :=
  if o is Deselect _ then true else false.

(** The end of the load sequence: the universe arrives at a page that
    holds whatever selection the earlier steps left. *)
Definition loadedPage (universe : list string) (p : Page) : Page :=
  loadAvailableSymbols_settled (Response 200 (Some universe)) p.

(** The load sequence: the selected set arrives, then the universe. *)
Definition loadSequence (selected universe : list string) (p : Page) : Page :=
  loadedPage universe (loadTradingSymbols_settled (Response 200 (Some selected)) p).

Definition examplePage (universe selected : list string) : Page :=
  set_availableSymbols universe (set_selectedSymbols selected (servedPage [])).

(** The invariant behind disjointness: the stored universe has no
    duplicate, the shown list is a selection of it, and no shown symbol is
    selected. *)
Definition wellShown (p : Page) : Prop :=
  NoDup (availableSymbols p) ∧
  shownAvailable p `sublist_of` availableSymbols p ∧
  disjointLists (shownAvailable p) (selectedSymbols p).

(** Everything a click on an available entry leaves alone. *)
Definition selectFrame (p p' : Page) : Prop :=
  priceChart p' = priceChart p ∧ tdiChart p' = tdiChart p ∧
  availableSymbols p' = availableSymbols p ∧
  currentSymbol p' = currentSymbol p ∧ symbolSearch p' = symbolSearch p ∧
  performanceSymbol p' = performanceSymbol p ∧
  currentPosition p' = currentPosition p ∧ tradeHistory p' = tradeHistory p ∧
  configForm p' = configForm p ∧ alerts p' = alerts p ∧
  loading p' = loading p ∧ inflight p' = inflight p.

Definition positionOf (dir : string) (entry stop : option Q) (levels : option (list Q))
  : Position :=
  {| pos_symbol := "BTCUSDT"; position := Some dir; entry_price := entry;
     position_size := Some 1%Q; stop_loss := stop; take_profit_levels := levels |}.





(** The number of trades with a strictly positive [pnl_pct]. *)
Fixpoint wins (trades : list Trade) : nat :=
  match trades with
  | [] => 0
  | t :: rest => (if Qlt_le_dec 0 (pnl_pct t) then 1 else 0) + wins rest
  end.

(** The win rate in percent as the script computes it: the quotient of
    the two counts, rounded, times 100, rounded. *)
Definition winRatePercent (trades : list Trade) : JS.number :=
  JS.mul (JS.div (JS.Fin (numberOfNat (wins trades)))
                 (JS.Fin (numberOfNat (length trades))))
         (JS.Fin 100).

Definition tradeWith (pnl : Q) : Trade :=
  {| entry_time := 0%Z; exit_time := 0%Z; direction := "long";
     trade_entry_price := 100%Q; exit_price := 100%Q; trade_position_size := 1%Q;
     pnl_pct := pnl; exit_reason := "signal" |}.

Definition exampleTrades : list Trade :=
  [tradeWith (2 # 100)%Q; tradeWith (- 1 # 100)%Q; tradeWith 0%Q].

(** A payload the success path renders to the end. *)
Definition completePayload (data : PerformanceBody) : Prop :=
  JS.truthyString (error data) = false ∧
  is_Some (stats data) ∧ is_Some (current_position data) ∧
  is_Some (price_data data) ∧ is_Some (tdi_data data).

Definition examplePayload (symbol : string) (winRate : Q) (trades : list Trade)
  : PerformanceBody :=
  {| error := None;
     stats := Some {| total_trades := length trades; win_rate := winRate;
                      avg_profit := (1 # 100)%Q; max_drawdown := (5 # 100)%Q |};
     current_position :=
       Some {| pos_symbol := symbol; position := None; entry_price := None;
               position_size := None; stop_loss := None;
               take_profit_levels := None |};
     price_data := Some [{| price_timestamp := 1000%Z; close := 100%Q |}];
     tdi_data := Some [];
     trades := Some trades |}.

(** The page just before trade-history rendering on the success path. *)
Definition renderedBeforeHistory
    (s : Stats) (pos : Position) (prices : list PricePoint) (tdi : list TdiPoint)
    (p : Page) : Page :=
  let p1 := set_currentPosition (positionPanel pos)
              (writeStats s (hideLoading "performance-stats" p)) in
  let p2 := set_priceChart (Some (priceChartOf prices))
              (set_priceChart (destroy <$> priceChart p1) p1) in
  set_tdiChart (Some (tdiChartOf tdi)) (set_tdiChart (destroy <$> tdiChart p2) p2).

(** The error texts the script takes for a connectivity problem. *)
Definition connectivityError (e : string) : Prop :=
  isSubstring "Binance client is not initialized" e ∨
  isSubstring "API keys" e ∨
  isSubstring "'NoneType' object has no attribute 'get_historical_klines'" e.

(** The guidance paragraph of the error panel, when one is shown. *)
Definition guidance (p : Page) : option string :=
  match currentPosition p with
  | PanelError _ additionalInfo _ => Some additionalInfo
  | _ => None
  end.

(** A body that is just [{error: e}]. *)
Definition errorBody (e : string) : PerformanceBody :=
  {| error := Some e; stats := None; current_position := None;
     price_data := None; tdi_data := None; trades := None |}.

(** What the performance section shows. *)
Record PerformanceView := {
  viewTotalTrades : option string;
  viewWinRate : option string;
  viewAvgProfit : option string;
  viewMaxDrawdown : option string;
  viewPosition : position_panel;
  viewPriceChart : option Chart;
  viewTdiChart : option Chart;
  viewHistory : list history_row
}.

Definition perfView (p : Page) : PerformanceView :=
  {| viewTotalTrades := text p !! "symbol-total-trades";
     viewWinRate := text p !! "symbol-win-rate";
     viewAvgProfit := text p !! "symbol-avg-profit";
     viewMaxDrawdown := text p !! "symbol-max-drawdown";
     viewPosition := currentPosition p;
     viewPriceChart := priceChart p;
     viewTdiChart := tdiChart p;
     viewHistory := tradeHistory p |}.

(** The view a complete payload is rendered to. *)
Definition payloadView (s : Stats) (pos : Position) (prices : list PricePoint)
    (tdi : list TdiPoint) (trades : option (list Trade)) : PerformanceView :=
  {| viewTotalTrades := Some (JS.stringOfNat (total_trades s));
     viewWinRate := Some (percent (win_rate s));
     viewAvgProfit := Some (percent (avg_profit s));
     viewMaxDrawdown := Some (percent (max_drawdown s));
     viewPosition := positionPanel pos;
     viewPriceChart := Some (priceChartOf prices);
     viewTdiChart := Some (tdiChartOf tdi);
     viewHistory := match trades with
                    | Some (t :: rest) => tradeRow <$> (t :: rest)
                    | _ => [NoHistoryRow]
                    end |}.

(** Symbol [a] is requested, then symbol [b]; the response for [b] settles
    first and the response for [a] last.  [n] is the number of requests
    that were already in flight. *)
Definition raceEvents (n : nat) (a b : string)
    (ra rb : FetchResult PerformanceBody) : list event :=
  [ChangePerformanceSymbol a; ChangePerformanceSymbol b;
   Settle (S n) (PerformanceReply rb); Settle n (PerformanceReply ra)].

(** Symbol [a] is requested and its response settles, with nothing else. *)
Definition soloEvents (n : nat) (a : string) (ra : FetchResult PerformanceBody)
  : list event :=
  [ChangePerformanceSymbol a; Settle n (PerformanceReply ra)].

(** A response the performance fetch does not render: one that lands in
    the [catch] before a body is read, or a body with an error text. *)
Definition failedResponse (r : FetchResult PerformanceBody) : bool :=
  match r with
  | Response status (Some data) => negb (ok status) || JS.truthyString (error data)
  | _ => true
  end.

(** A handler body that leaves the requests in flight and the active
    symbol as they are. *)
Definition keepsNetwork (a : Script) : Prop :=
  ∀ p, inflight (a p).1 = inflight p ∧ currentSymbol (a p).1 = currentSymbol p.

Definition checkbox (name : string) (checked disabled : bool) : control :=
  {| ctl_name := name; ctl_type := Checkbox; ctl_value := "True";
     ctl_checked := checked; ctl_disabled := disabled |}.

Definition exampleForm : list control :=
  [ {| ctl_name := "BINANCE_API_KEY"; ctl_type := TextInput; ctl_value := "key";
       ctl_checked := false; ctl_disabled := false |};
    checkbox "USE_TESTNET" false false;
    checkbox "USE_ML_FILTER" true false;
    checkbox "BACKTEST_MODE" false true ].

(** The page after [DOMContentLoaded], once the selection and then the
    universe have arrived (the configuration is still on its way). *)
Definition readyPage : Page :=
  steps [Settle 1 (SymbolsReply (Response 200 (Some ["ETHUSDT"])));
         Settle 1 (SymbolsReply (Response 200 (Some ["BTCUSDT"; "ETHUSDT"; "BNBUSDT"])))]
        (onDOMContentLoaded (servedPage exampleForm)).

(** ** Vocabulary of the further properties *)

(** What [updateSelectedSymbolsList] shows for a selection. *)
Definition renderSelected (selected : list string) : list selected_node :=
  match selected with
  | [] => [NoSymbolsSelected]
  | _ => SelectedItem <$> selected
  end.

(** A script that leaves the component [f] of the page as it is. *)
Definition keeps {A : Type} (f : Page → A) (a : Script) : Prop :=
  ∀ p, f (a p).1 = f p.

(** The stored selection with the list that shows it. *)
Definition selectionView (p : Page) : list string * list selected_node :=
  (selectedSymbols p, selectedList p).


(** Everything of the page outside the performance section, its texts,
    loading marks and alerts. *)
Definition symbolState (p : Page) :=
  (availableSymbols p, selectedSymbols p, availableList p, selectedList p,
   symbolSearch p, performanceSymbol p, configForm p, currentSymbol p, inflight p).

(** What loading a configuration cannot change in a control. *)
Definition controlShape (c : control) : string * control_type * bool :=
  (ctl_name c, ctl_type c, ctl_disabled c).

(** A text without a line feed or a carriage return: what a text or
    password input keeps unchanged when it is assigned to its [value]. *)
Fixpoint singleLine (s : string) : bool :=
  match s with
  | EmptyString => true
  | String c rest =>
      negb ((Ascii.N_of_ascii c =? 10) || (Ascii.N_of_ascii c =? 13))%N
      && singleLine rest
  end.

(** Whether [new FormData(form)] has an entry for the control. *)
Definition submitted (c : control) : bool :=
  negb (ctl_disabled c || String.eqb (ctl_name c) EmptyString
        || (isCheckbox c && negb (ctl_checked c))).


Definition unexpectedPanel (symbol : string) : position_panel :=
  PanelError "An unexpected error occurred while loading performance data."
    genericInfo symbol.




(** A position, and a trade, with another direction. *)
Definition withDirection (dir : option string) (pos : Position) : Position :=
  {| pos_symbol := pos_symbol pos; position := dir; entry_price := entry_price pos;
     position_size := position_size pos; stop_loss := stop_loss pos;
     take_profit_levels := take_profit_levels pos |}.

Definition tradeWithDirection (dir : string) (t : Trade) : Trade :=
  {| entry_time := entry_time t; exit_time := exit_time t; direction := dir;
     trade_entry_price := trade_entry_price t; exit_price := exit_price t;
     trade_position_size := trade_position_size t; pnl_pct := pnl_pct t;
     exit_reason := exit_reason t |}.


(** Whether a call with the body [{success, ...}] is taken as done. *)
Definition acknowledged (r : FetchResult Ack) : bool :=
  match r with
  | Response _ (Some data) => success data
  | _ => false
  end.

(** A payload that stops after the statistics. *)
Definition statsOnlyPayload : PerformanceBody :=
  {| error := None;
     stats := Some {| total_trades := 3; win_rate := (1 # 2)%Q;
                      avg_profit := (1 # 100)%Q; max_drawdown := (5 # 100)%Q |};
     current_position := None; price_data := None; tdi_data := None;
     trades := None |}.

(** The body of a call that was carried out. *)
Definition exampleAck : Ack :=
  {| success := true; action := Some "BUY"; ack_error := None |}.

(** ** Navigation ([initNavigation]) *)
Module Nav.

Inductive display : Type :=
| Unset
| Block
| Hidden.

Record link := { href : string; active : bool }.

Record section := { id : string; style_display : display }.

Record Navigation := { navLinks : list link; sections : list section }.

Definition setDisplay (d : display) (s : section) : section :=
  {| id := id s; style_display := d |}.

(** [href.substring(1)]: the [href] without its first character. *)
Definition targetOf (h : string) : string :=
  match h with
  | EmptyString => EmptyString
  | String _ rest => rest
  end.

(** The click listener of the [k]-th navigation link. *)
Definition onLinkClick (k : nat) (nav : Navigation) : Navigation :=
  match navLinks nav !! k with
  | None => nav
  | Some this =>
      let links := (fun l => {| href := href l; active := false |}) <$> navLinks nav in
      let links := <[k := {| href := href this; active := true |}]> links in
      let targetId := targetOf (href this) in
      {| navLinks := links;
         sections :=
           (fun s => if String.eqb (id s) targetId
                     then setDisplay Block s else setDisplay Hidden s)
             <$> sections nav |}
  end.

(** [initNavigation()]: the listeners are attached and every section but
    the dashboard is hidden. *)
Definition initNavigation (nav : Navigation) : Navigation :=
  {| navLinks := navLinks nav;
     sections :=
       (fun s => if negb (String.eqb (id s) "dashboard")
                 then setDisplay Hidden s else s) <$> sections nav |}.

(** The links and the sections of the page as served. *)
Definition servedNavigation : Navigation :=
  {| navLinks := [ {| href := "#dashboard"; active := true |};
                   {| href := "#configuration"; active := false |};
                   {| href := "#trading-pairs"; active := false |};
                   {| href := "#performance"; active := false |} ];
     sections := [ {| id := "dashboard"; style_display := Unset |};
                   {| id := "configuration"; style_display := Unset |};
                   {| id := "trading-pairs"; style_display := Unset |};
                   {| id := "performance"; style_display := Unset |} ] |}.

End Nav.

(** ** Loading indicators ([showLoading], [hideLoading]) in detail *)
Module Overlay.

(** A region of the page: whether it carries the [loading-container]
    class and how many [.loading-indicator] elements it holds. *)
Record Region := { loadingContainer : bool; indicators : nat }.

Definition showLoading (elementId : string) (dom : gmap string Region)
  : gmap string Region :=
  match dom !! elementId with
  | None => dom
  | Some element =>
      <[elementId :=
          {| loadingContainer := true;
             indicators := if (indicators element =? 0)%nat then 1
                           else indicators element |}]> dom
  end.

Definition hideLoading (elementId : string) (dom : gmap string Region)
  : gmap string Region :=
  match dom !! elementId with
  | None => dom
  | Some element =>
      <[elementId :=
          {| loadingContainer := false;
             indicators := Nat.pred (indicators element) |}]> dom
  end.

(** [container.innerHTML = ''] on a region that is a list container. *)
Definition clearContent (elementId : string) (dom : gmap string Region)
  : gmap string Region :=
  match dom !! elementId with
  | None => dom
  | Some element =>
      <[elementId := {| loadingContainer := loadingContainer element;
                        indicators := 0 |}]> dom
  end.

Inductive op : Type :=
| Show (elementId : string)
| Hide (elementId : string)
| Clear (elementId : string).

Definition apply (o : op) (dom : gmap string Region) : gmap string Region :=
  match o with
  | Show i => showLoading i dom
  | Hide i => hideLoading i dom
  | Clear i => clearContent i dom
  end.

(** A region is tidy when it holds at most one indicator, and none
    without the class. *)
Definition tidy (r : Region) : Prop :=
  (indicators r ≤ 1)%nat ∧ (indicators r = 1%nat → loadingContainer r = true).

End Overlay.

(** * Properties *)

(** ** Strings and arrays *)

Lemma append_String c a b : String c a +:+ b = String c (a +:+ b).
Proof. reflexivity. Qed.

Lemma startsWith_spec s q :
  JS.startsWith s q = true ↔ ∃ post, s = q +:+ post.
Proof.
  revert s. induction q as [|a q IH]; intros s; simpl.
  - split; [intros _; by exists s | done].
  - destruct s as [|b s].
    + split; [done | intros [post H]; discriminate H].
    + rewrite andb_true_iff, IH. split.
      * intros [Hab [post ->]]. apply Ascii.eqb_eq in Hab as ->. by exists post.
      * intros [post H]. rewrite append_String in H. injection H as -> ->.
        split; [apply Ascii.eqb_refl | by exists post].
Qed.

Lemma includes_spec s q :
  JS.includes s q = true ↔ isSubstring q s.
Proof.
  unfold isSubstring. induction s as [|c s IH].
  - simpl. rewrite orb_false_r, startsWith_spec. split.
    + intros [post H]. by exists EmptyString, post.
    + intros [pre [post H]]. destruct pre; [by exists post | discriminate H].
  - cbn [JS.includes]. rewrite orb_true_iff, IH, startsWith_spec. split.
    + intros [[post H] | [pre [post H]]].
      * by exists EmptyString, post.
      * exists (String c pre), post. by rewrite append_String, H.
    + intros [pre [post H]]. destruct pre as [|c' pre].
      * left. by exists post.
      * right. rewrite append_String in H. injection H as -> H. by exists pre, post.
Qed.

Lemma arrayIncludes_spec l x : JS.arrayIncludes l x = true ↔ x ∈ l.
Proof. unfold JS.arrayIncludes. apply bool_decide_eq_true. Qed.

Lemma arrayIncludes_false l x : JS.arrayIncludes l x = false ↔ x ∉ l.
Proof. unfold JS.arrayIncludes. apply bool_decide_eq_false. Qed.

Lemma Kept_filter {A} (f : A → bool) (P : A → Prop) l :
  (∀ x, f x = true ↔ P x) → Kept P l (List.filter f l).
Proof.
  intros Hf. induction l as [|x l IH]; simpl; [constructor|].
  destruct (f x) eqn:E.
  - apply Kept_take; [by apply Hf | done].
  - apply Kept_drop; [|done]. rewrite <- Hf. congruence.
Qed.

Lemma filter_sublist {A} (f : A → bool) l : List.filter f l `sublist_of` l.
Proof.
  induction l as [|x l IH]; simpl; [constructor|].
  destruct (f x); by constructor.
Qed.

Lemma omap_delete_sublist {A B} (f : A → option B) l i :
  omap f (delete i l) `sublist_of` omap f l.
Proof.
  revert i. induction l as [|x l IH]; intros [|i]; simpl; try done.
  - destruct (f x); [by apply sublist_cons | done].
  - destruct (f x); [by apply sublist_skip | done].
Qed.

Lemma omap_delete_fresh {A B} (f : A → option B) l i x y :
  l !! i = Some x → f x = Some y → NoDup (omap f l) → y ∉ omap f (delete i l).
Proof.
  revert i. induction l as [|z l IH]; intros [|i]; simpl; try done.
  - intros [= ->] -> Hnd. by apply NoDup_cons in Hnd as [? _].
  - intros Hi Hy Hnd. destruct (f z) as [w|] eqn:E; [|by eapply IH].
    apply NoDup_cons in Hnd as [Hw Hnd].
    apply not_elem_of_cons. split; [|by eapply IH].
    intros ->. apply Hw. apply list_elem_of_omap. exists x. split; [|done].
    by eapply list_elem_of_lookup_2.
Qed.

Lemma lookup_last {A} (l : list A) x : (l ++ [x]) !! length l = Some x.
Proof. by rewrite lookup_app_r, Nat.sub_diag. Qed.

Lemma delete_last {A} (l : list A) x : delete (length l) (l ++ [x]) = l.
Proof. induction l as [|y l IH]; [done|]. simpl. by rewrite IH. Qed.

Lemma lookup_last2 {A} (l : list A) x y :
  ((l ++ [x]) ++ [y]) !! S (length l) = Some y.
Proof.
  replace (S (length l)) with (length (l ++ [x])) by (rewrite length_app; simpl; lia).
  apply lookup_last.
Qed.

Lemma delete_last2 {A} (l : list A) x y :
  delete (S (length l)) ((l ++ [x]) ++ [y]) = l ++ [x].
Proof.
  replace (S (length l)) with (length (l ++ [x])) by (rewrite length_app; simpl; lia).
  apply delete_last.
Qed.

(** ** Numbers *)

Lemma Qeq_bool_false_iff (a b : Q) : Qeq_bool a b = false ↔ ¬ (a == b)%Q.
Proof.
  split.
  - intros H E. apply Qeq_bool_iff in E. congruence.
  - intros H. destruct (Qeq_bool a b) eqn:E; [|done]. by apply Qeq_bool_iff in E.
Qed.

(** Below the overflow threshold rounding gives a finite double. *)
Lemma double_finite (q : Q) :
  (Qabs q < JS.overflow)%Q → JS.double q = JS.Fin (JS.nearest q).
Proof.
  intros H. unfold JS.double. destruct (Qle_bool JS.overflow (Qabs q)) eqn:E; [|done].
  apply Qle_bool_iff in E. by apply Qle_not_lt in E.
Qed.



Lemma div_finite (a b : Q) :
  ¬ (b == 0)%Q → (Qabs (a / b) < JS.overflow)%Q →
  JS.div (JS.Fin a) (JS.Fin b) = JS.Fin (JS.nearest (a / b)).
Proof.
  intros H Hlt. unfold JS.div. rewrite (proj2 (Qeq_bool_false_iff b 0) H).
  by apply double_finite.
Qed.

Lemma numberOfNat_nonzero n : (0 < n)%nat → ¬ (numberOfNat n == 0)%Q.
Proof. intros Hn. unfold numberOfNat, Qeq. simpl. lia. Qed.






(** *** Against the binary64 of the Standard Library *)

(** On some quotients that are no doubles, on quotients that fall among
    the subnormal numbers, and on every quotient of two integers from -25
    to 25, [JS.div] is the division of binary64. *)
Lemma quotients_match_binary64 :
  forallb (fun '(n, d) =>
    Binary64.same (JS.div (JS.Fin (inject_Z n)) (JS.Fin (inject_Z d)))
      (Binary64.number (Binary64.div (Binary64.ofZ n) (Binary64.ofZ d))))
    [(201, 200); (23, 160); (75, 100000); (1005, 1000); (1, 3); (2, 100);
     (-1, 100); (12345, 100000); (2 ^ 53 - 1, 2 ^ 53); (1, 2 ^ 1000);
     (2 ^ 1000, 3)]%Z = true ∧
  forallb (fun '(n, d, d') =>
    Binary64.same
      (JS.div (JS.div (JS.Fin (inject_Z n)) (JS.Fin (inject_Z d))) (JS.Fin (inject_Z d')))
      (Binary64.number
         (Binary64.div (Binary64.div (Binary64.ofZ n) (Binary64.ofZ d))
                       (Binary64.ofZ d'))))
    [(1, 2 ^ 1000, 2 ^ 74); (1, 2 ^ 1000, 2 ^ 75); (3, 2 ^ 1000, 2 ^ 75);
     (5, 2 ^ 1000, 2 ^ 76); (7, 2 ^ 1000, 2 ^ 76); (-3, 2 ^ 1000, 2 ^ 75);
     (2 ^ 1000, 1, 3); (1, 3, 2 ^ 1000)]%Z = true ∧
  forallb (fun n =>
    forallb (fun d =>
      Binary64.same (JS.div (JS.Fin (inject_Z n)) (JS.Fin (inject_Z d)))
        (Binary64.number (Binary64.div (Binary64.ofZ n) (Binary64.ofZ d))))
      (Binary64.range (-25) 51))
    (Binary64.range (-25) 51) = true.
Proof. split; [|split]; by vm_compute. Qed.

(** The win rate of every list of up to 40 trades is the one binary64
    arithmetic gives. *)
Lemma win_rates_match_binary64 :
  forallb (fun n =>
    forallb (fun w =>
      Binary64.same
        (JS.mul (JS.div (JS.Fin (inject_Z w)) (JS.Fin (inject_Z n))) (JS.Fin 100))
        (Binary64.number
           (Binary64.mul (Binary64.div (Binary64.ofZ w) (Binary64.ofZ n))
                         (Binary64.ofZ 100))))
      (Binary64.range 0 41))
    (Binary64.range 1 40) = true.
Proof. by vm_compute. Qed.

(** The risk/reward quotient of entry, stop and target prices from 0.1
    to 0.8 is the one binary64 arithmetic gives, the infinite and
    undefined ones included. *)
Lemma ratios_match_binary64 :
  forallb (fun e =>
    forallb (fun s =>
      forallb (fun t =>
        let d x := JS.div (JS.Fin (inject_Z x)) (JS.Fin 10) in
        let f x := Binary64.div (Binary64.ofZ x) (Binary64.ofZ 10) in
        Binary64.same
          (JS.div (JS.sub (d t) (d e)) (JS.sub (d e) (d s)))
          (Binary64.number
             (Binary64.div (Binary64.sub (f t) (f e)) (Binary64.sub (f e) (f s)))))
        (Binary64.range 1 8))
      (Binary64.range 1 8))
    (Binary64.range 1 8) = true.
Proof. by vm_compute. Qed.

(** *** Counts *)

(** A share of a count lies between 0 and 1. *)
Lemma share_bounds (w n : nat) :
  (w ≤ n)%nat → (0 < n)%nat →
  (0 <= numberOfNat w / numberOfNat n)%Q ∧ (numberOfNat w / numberOfNat n <= 1)%Q.
Proof.
  intros Hwn Hn. unfold numberOfNat.
  assert (0 < inject_Z (Z.of_nat n))%Q as Hnq by (unfold Qlt; simpl; lia).
  assert (0 <= inject_Z (Z.of_nat w))%Q as Hwq by (unfold Qle; simpl; lia).
  assert (inject_Z (Z.of_nat w) <= inject_Z (Z.of_nat n))%Q as Hle
    by (unfold Qle; simpl; lia).
  split.
  - apply Qle_shift_div_l; [done|]. by rewrite Qmult_0_l.
  - apply Qle_shift_div_r; [done|]. by rewrite Qmult_1_l.
Qed.

Lemma div_counts (w n : nat) :
  (w ≤ n)%nat → (0 < n)%nat →
  JS.div (JS.Fin (numberOfNat w)) (JS.Fin (numberOfNat n))
  = JS.Fin (JS.nearest (numberOfNat w / numberOfNat n)).
Proof.
  intros Hwn Hn. destruct (share_bounds w n Hwn Hn) as [H0 H1].
  apply div_finite; [by apply numberOfNat_nonzero|].
  rewrite Qabs_pos by done. eapply Qle_lt_trans; [exact H1|]. reflexivity.
Qed.

Lemma wins_le_length trades : (wins trades ≤ length trades)%nat.
Proof.
  induction trades as [|t rest IH]; simpl; [lia|].
  destruct (Qlt_le_dec 0 (pnl_pct t)); lia.
Qed.


(** ** SymbolSetManager *)

Section SymbolSet.

Implicit Types (p : Page) (symbol query : string) (universe selected : list string).

Lemma shownAvailable_update symbols p :
  shownAvailable (updateAvailableSymbolsList symbols p) = symbols.
Proof.
  unfold updateAvailableSymbolsList, shownAvailable.
  destruct symbols as [|s l]; [done|]. simpl. f_equal.
  induction l as [|x l IH]; [done|]. simpl. by rewrite IH.
Qed.

Lemma update_available_fields symbols p :
  availableSymbols (updateAvailableSymbolsList symbols p) = availableSymbols p ∧
  selectedSymbols (updateAvailableSymbolsList symbols p) = selectedSymbols p ∧
  symbolSearch (updateAvailableSymbolsList symbols p) = symbolSearch p.
Proof. unfold updateAvailableSymbolsList. by destruct (_ =? _)%nat. Qed.

Lemma update_selected_fields p :
  availableSymbols (updateSelectedSymbolsList p) = availableSymbols p ∧
  selectedSymbols (updateSelectedSymbolsList p) = selectedSymbols p ∧
  symbolSearch (updateSelectedSymbolsList p) = symbolSearch p ∧
  availableList (updateSelectedSymbolsList p) = availableList p.
Proof. unfold updateSelectedSymbolsList. by destruct (_ =? _)%nat. Qed.

Lemma filterSymbols_shown query p :
  shownAvailable (filterSymbols query p) =
  List.filter (fun symbol => negb (JS.arrayIncludes (selectedSymbols p) symbol)
                             && JS.includes symbol (JS.toUpperCase query))
              (availableSymbols p).
Proof. unfold filterSymbols. apply shownAvailable_update. Qed.

Lemma filterSymbols_fields query p :
  availableSymbols (filterSymbols query p) = availableSymbols p ∧
  selectedSymbols (filterSymbols query p) = selectedSymbols p.
Proof.
  unfold filterSymbols. cbv zeta.
  by destruct (update_available_fields
    (List.filter (fun symbol => negb (JS.arrayIncludes (selectedSymbols p) symbol)
                                && JS.includes symbol (JS.toUpperCase query))
                 (availableSymbols p)) p) as (-> & -> & _).
Qed.

Lemma filterSymbols_disjoint query p :
  disjointLists (shownAvailable (filterSymbols query p))
                (selectedSymbols (filterSymbols query p)).
Proof.
  intros s. rewrite filterSymbols_shown, (proj2 (filterSymbols_fields query p)).
  rewrite list_elem_of_In, filter_In, andb_true_iff, negb_true_iff, arrayIncludes_false.
  tauto.
Qed.

Lemma filterSymbols_wellShown query p :
  NoDup (availableSymbols p) → wellShown (filterSymbols query p).
Proof.
  intros Hnd. split; [|split].
  - by rewrite (proj1 (filterSymbols_fields query p)).
  - rewrite filterSymbols_shown, (proj1 (filterSymbols_fields query p)).
    apply filter_sublist.
  - apply filterSymbols_disjoint.
Qed.

Lemma select_wellShown i symbol p :
  availableList p !! i = Some (AvailableItem symbol) →
  wellShown p → wellShown (onAvailableItemClick i symbol p).
Proof.
  intros Hi (Hnd & Hsub & Hdis). unfold onAvailableItemClick.
  destruct (JS.arrayIncludes (selectedSymbols p) symbol) eqn:E; simpl; [done|].
  set (q := set_availableList _ _).
  destruct (update_selected_fields q) as (Ha & Hs & _ & Hl).
  unfold wellShown, shownAvailable. rewrite Ha, Hs, Hl. subst q. simpl.
  split; [done|split].
  - etrans; [apply omap_delete_sublist | exact Hsub].
  - intros s Hs'. apply not_elem_of_app. split.
    + apply Hdis. eapply elem_of_sublist; [exact Hs'|]. apply omap_delete_sublist.
    + intros ->%list_elem_of_singleton. revert Hs'.
      eapply omap_delete_fresh; [exact Hi | done |].
      by eapply sublist_NoDup.
Qed.

Lemma deselect_universe symbol p :
  NoDup (availableSymbols p) →
  ∃ q, onRemoveButtonClick symbol p = filterSymbols (symbolSearch q) q ∧
       NoDup (availableSymbols q).
Proof.
  intros Hnd. unfold onRemoveButtonClick.
  set (q := match JS.indexOf _ _ with Some _ => _ | None => _ end).
  assert (availableSymbols q = availableSymbols p) as Hq
    by (subst q; by destruct (JS.indexOf _ _)).
  destruct (update_selected_fields q) as (Ha & _).
  eexists. split; [reflexivity|].
  destruct (JS.arrayIncludes _ symbol) eqn:E; simpl.
  - by rewrite Ha, Hq.
  - rewrite Ha, Hq. apply NoDup_app. split; [done|]. split; [|apply NoDup_singleton].
    intros x Hx ->%list_elem_of_singleton.
    apply arrayIncludes_false in E. apply E. by rewrite Ha, Hq.
Qed.

Lemma deselect_disjoint symbol p :
  disjointLists (shownAvailable (onRemoveButtonClick symbol p))
                (selectedSymbols (onRemoveButtonClick symbol p)).
Proof. unfold onRemoveButtonClick. apply filterSymbols_disjoint. Qed.

Lemma step_wellShown o p : wellShown p → wellShown (step (eventOf o) p).
Proof.
  intros Hp. destruct o as [i|i|query]; simpl.
  - destruct (availableList p !! i) as [[|symbol]|] eqn:E; try done.
    by apply select_wellShown.
  - destruct (selectedList p !! i) as [[|symbol]|]; try done.
    destruct (deselect_universe symbol p) as (q & -> & Hq); [apply Hp|].
    by apply filterSymbols_wellShown.
  - apply filterSymbols_wellShown. apply Hp.
Qed.

Lemma steps_wellShown ops p :
  wellShown p → wellShown (steps (eventOf <$> ops) p).
Proof.
  revert p. induction ops as [|o ops IH]; intros p Hp; [done|].
  simpl. apply IH. by apply step_wellShown.
Qed.

Lemma loadedPage_fields universe p :
  availableSymbols (loadedPage universe p) = universe ∧
  selectedSymbols (loadedPage universe p) = selectedSymbols p ∧
  shownAvailable (loadedPage universe p) =
    List.filter (fun symbol => negb (JS.arrayIncludes (selectedSymbols p) symbol)) universe.
Proof.
  unfold loadedPage, loadAvailableSymbols_settled. cbv zeta.
  set (shown := List.filter _ _).
  destruct (update_available_fields shown (set_availableSymbols universe p)) as (Ha & Hs & _).
  unfold hideLoading, shownAvailable. simpl.
  fold (shownAvailable (updateAvailableSymbolsList shown (set_availableSymbols universe p))).
  by rewrite Ha, Hs, shownAvailable_update.
Qed.

Lemma loadedPage_wellShown universe p :
  NoDup universe → wellShown (loadedPage universe p).
Proof.
  intros Hnd. destruct (loadedPage_fields universe p) as (Ha & Hs & Hl).
  unfold wellShown. rewrite Ha, Hs, Hl. split; [done|split].
  - apply filter_sublist.
  - intros s. rewrite list_elem_of_In, filter_In, negb_true_iff, arrayIncludes_false. tauto.
Qed.

(** C5.  [filterSymbols(query)] upper-cases the query and shows exactly the
    symbols of the stored available collection that are not selected and
    contain the upper-cased query somewhere (not only at the front), each
    as often as stored and in the stored order.  On the universe BTCUSDT,
    ETHUSDT, BNBUSDT with ETHUSDT selected, the query BT (in either case)
    shows BTCUSDT alone, and the query SDT, which is no prefix, shows
    BTCUSDT and BNBUSDT. *)
Theorem filterSymbols_semantics :
  (∀ query p,
     Kept (λ symbol, (symbol ∉ selectedSymbols p) ∧
                     isSubstring (JS.toUpperCase query) symbol)
          (availableSymbols p) (shownAvailable (filterSymbols query p))) ∧
  JS.toUpperCase "bt" = "BT" ∧
  shownAvailable (filterSymbols "BT"
    (examplePage ["BTCUSDT"; "ETHUSDT"; "BNBUSDT"] ["ETHUSDT"])) = ["BTCUSDT"] ∧
  shownAvailable (filterSymbols "bt"
    (examplePage ["BTCUSDT"; "ETHUSDT"; "BNBUSDT"] ["ETHUSDT"])) = ["BTCUSDT"] ∧
  shownAvailable (filterSymbols "SDT"
    (examplePage ["BTCUSDT"; "ETHUSDT"; "BNBUSDT"] ["ETHUSDT"]))
    = ["BTCUSDT"; "BNBUSDT"].
Proof.
  split; [|by vm_compute].
  intros query p. rewrite filterSymbols_shown. apply Kept_filter. intros symbol.
  by rewrite andb_true_iff, negb_true_iff, arrayIncludes_false, includes_spec.
Qed.

(** C1 as stated does not hold.  The stored available collection keeps
    the selected symbols: after the load and one select it shares ETHUSDT
    and BTCUSDT with the selection.  And with a universe that repeats a
    symbol the shown list keeps the second copy of the symbol that was
    just selected. *)
Lemma available_selected_overlap :
  (let p := steps (eventOf <$> [Select 0]) readyPage in
   availableSymbols p = ["BTCUSDT"; "ETHUSDT"; "BNBUSDT"] ∧
   selectedSymbols p = ["ETHUSDT"; "BTCUSDT"] ∧
   ¬ disjointLists (availableSymbols p) (selectedSymbols p)) ∧
  (let p := steps (eventOf <$> [Select 0])
              (loadSequence [] ["BTCUSDT"; "BTCUSDT"] (servedPage [])) in
   shownAvailable p = ["BTCUSDT"] ∧
   selectedSymbols p = ["BTCUSDT"] ∧
   ¬ disjointLists (shownAvailable p) (selectedSymbols p)).
Proof.
  split; cbv zeta.
  - assert (availableSymbols (steps (eventOf <$> [Select 0]) readyPage)
            = ["BTCUSDT"; "ETHUSDT"; "BNBUSDT"]) as -> by reflexivity.
    assert (selectedSymbols (steps (eventOf <$> [Select 0]) readyPage)
            = ["ETHUSDT"; "BTCUSDT"]) as -> by reflexivity.
    split; [done|split; [done|]]. intros H. apply (H "BTCUSDT"); set_solver.
  - assert (shownAvailable (steps (eventOf <$> [Select 0])
              (loadSequence [] ["BTCUSDT"; "BTCUSDT"] (servedPage [])))
            = ["BTCUSDT"]) as -> by reflexivity.
    assert (selectedSymbols (steps (eventOf <$> [Select 0])
              (loadSequence [] ["BTCUSDT"; "BTCUSDT"] (servedPage [])))
            = ["BTCUSDT"]) as -> by reflexivity.
    split; [done|split; [done|]]. intros H. apply (H "BTCUSDT"); set_solver.
Qed.

(** C1, amended.  The list of available symbols the page shows and the
    selected collection have no symbol in common after every filter and
    after every deselect; and after every sequence of select, deselect and
    filter operations that starts where the universe was loaded, provided
    the universe names no symbol twice. *)
Theorem shown_selected_disjoint :
  (∀ query p,
     disjointLists (shownAvailable (step (eventOf (Filter query)) p))
                   (selectedSymbols (step (eventOf (Filter query)) p))) ∧
  (∀ symbol p,
     disjointLists (shownAvailable (onRemoveButtonClick symbol p))
                   (selectedSymbols (onRemoveButtonClick symbol p))) ∧
  (∀ universe ops p,
     NoDup universe →
     disjointLists (shownAvailable (steps (eventOf <$> ops) (loadedPage universe p)))
                   (selectedSymbols (steps (eventOf <$> ops) (loadedPage universe p)))).
Proof.
  split; [|split].
  - intros query p. apply filterSymbols_disjoint.
  - apply deselect_disjoint.
  - intros universe ops p Hnd. by apply steps_wellShown, loadedPage_wellShown.
Qed.

Lemma shown_selected_disjoint_witness :
  NoDup ["BTCUSDT"; "ETHUSDT"; "BNBUSDT"] ∧
  disjointLists
    (shownAvailable
       (steps (eventOf <$> [Select 0; Filter "usd"; Deselect 0; Select 1])
          (loadedPage ["BTCUSDT"; "ETHUSDT"; "BNBUSDT"]
             (set_selectedSymbols ["ETHUSDT"] (servedPage [])))))
    (selectedSymbols
       (steps (eventOf <$> [Select 0; Filter "usd"; Deselect 0; Select 1])
          (loadedPage ["BTCUSDT"; "ETHUSDT"; "BNBUSDT"]
             (set_selectedSymbols ["ETHUSDT"] (servedPage []))))).
Proof.
  assert (NoDup ["BTCUSDT"; "ETHUSDT"; "BNBUSDT"]) as Hnd
    by (apply (bool_decide_unpack _); vm_compute; exact I).
  split; [exact Hnd|].
  apply (proj2 (proj2 shown_selected_disjoint)
           ["BTCUSDT"; "ETHUSDT"; "BNBUSDT"]
           [Select 0; Filter "usd"; Deselect 0; Select 1]
           (set_selectedSymbols ["ETHUSDT"] (servedPage [])) Hnd).
Defined.

Lemma select_effect i symbol p :
  availableList p !! i = Some (AvailableItem symbol) →
  (symbol ∉ selectedSymbols p) →
  let p' := step (ClickAvailable i) p in
  selectFrame p p' ∧
  selectedSymbols p' = selectedSymbols p ++ [symbol] ∧
  availableList p' = delete i (availableList p) ∧
  selectedList p' = SelectedItem <$> (selectedSymbols p ++ [symbol]) ∧
  text p' = <["active-symbols-count" :=
               JS.stringOfNat (length (selectedSymbols p ++ [symbol]))]> (text p).
Proof.
  intros Hi Hs. simpl. rewrite Hi. unfold onAvailableItemClick.
  apply arrayIncludes_false in Hs. rewrite Hs. simpl.
  unfold updateSelectedSymbolsList. simpl.
  rewrite length_app, Nat.add_1_r. simpl. by repeat split.
Qed.



Lemma step_keeps_universe o p :
  isDeselect o = false →
  availableSymbols (step (eventOf o) p) = availableSymbols p.
Proof.
  destruct o as [i|i|query]; [| done |]; intros _; simpl.
  - destruct (availableList p !! i) as [[|symbol]|]; try done.
    unfold onAvailableItemClick. destruct (negb _); [|done]. cbv zeta.
    by rewrite (proj1 (update_selected_fields _)).
  - by rewrite (proj1 (filterSymbols_fields _ _)).
Qed.




End SymbolSet.

(** ** ConfigSync *)

Section ConfigSync.

Implicit Types (name value : string) (fd : FormData).

Lemma getAll_filter_other name rest :
  formDataGetAll name
    (List.filter (fun e : string * string => negb (String.eqb (fst e) name)) rest) = [].
Proof.
  unfold formDataGetAll. induction rest as [|[k v] rest IH]; [done|]. simpl.
  destruct (String.eqb k name) eqn:E; simpl; [done|]. by rewrite E.
Qed.

Lemma getAll_set_same name value fd :
  formDataGetAll name (formDataSet name value fd) = [value].
Proof.
  induction fd as [|[k v] rest IH]; simpl.
  - unfold formDataGetAll. simpl. by rewrite String.eqb_refl.
  - destruct (String.eqb k name) eqn:E.
    + unfold formDataGetAll. simpl. rewrite String.eqb_refl. simpl. f_equal.
      apply getAll_filter_other.
    + unfold formDataGetAll in *. simpl. by rewrite E.
Qed.

Lemma getAll_filter_ne name other rest :
  name ≠ other →
  formDataGetAll name
    (List.filter (fun e : string * string => negb (String.eqb (fst e) other)) rest)
  = formDataGetAll name rest.
Proof.
  intros Hne. unfold formDataGetAll.
  induction rest as [|[k v] rest IH]; [done|]. simpl.
  destruct (String.eqb k other) eqn:E; simpl.
  - apply String.eqb_eq in E as ->.
    apply not_eq_sym, String.eqb_neq in Hne. by rewrite Hne.
  - destruct (String.eqb k name); simpl; [f_equal|]; exact IH.
Qed.

Lemma getAll_set_other name other value fd :
  name ≠ other →
  formDataGetAll name (formDataSet other value fd) = formDataGetAll name fd.
Proof.
  intros Hne. induction fd as [|[k v] rest IH]; simpl.
  - unfold formDataGetAll. simpl. apply not_eq_sym, String.eqb_neq in Hne. by rewrite Hne.
  - destruct (String.eqb k other) eqn:E.
    + apply String.eqb_eq in E as ->.
      transitivity (formDataGetAll name
        (List.filter (fun e : string * string => negb (String.eqb (fst e) other)) rest)).
      * unfold formDataGetAll. simpl.
        apply not_eq_sym, String.eqb_neq in Hne. by rewrite Hne.
      * rewrite getAll_filter_ne by done. unfold formDataGetAll. simpl.
        apply not_eq_sym, String.eqb_neq in Hne. by rewrite Hne.
    + unfold formDataGetAll in *. simpl.
      destruct (String.eqb k name); simpl; [f_equal|]; exact IH.
Qed.

(** Once a flag is forced, the later checkboxes leave it forced. *)
Lemma forced_stays name checkboxes fd :
  formDataGetAll name fd = ["False"] →
  formDataGetAll name (fold_left forceUnchecked checkboxes fd) = ["False"].
Proof.
  revert fd. induction checkboxes as [|c rest IH]; intros fd H; [done|].
  simpl. apply IH. unfold forceUnchecked. destruct (ctl_checked c); simpl; [done|].
  destruct (decide (name = ctl_name c)) as [->|Hne].
  - apply getAll_set_same.
  - by rewrite getAll_set_other.
Qed.

Lemma forced_member c checkboxes fd :
  c ∈ checkboxes → ctl_checked c = false →
  formDataGetAll (ctl_name c) (fold_left forceUnchecked checkboxes fd) = ["False"].
Proof.
  revert fd. induction checkboxes as [|d rest IH]; intros fd Hin Hc.
  - by apply elem_of_nil in Hin.
  - apply elem_of_cons in Hin as [<- | Hin]; simpl.
    + apply forced_stays. unfold forceUnchecked. rewrite Hc. apply getAll_set_same.
    + by apply IH.
Qed.

(** C8.  On a configuration save, the request that is sent carries, for
    every checkbox of the form that is not checked, exactly one entry
    under the name of the checkbox, and its value is the string False. *)
Theorem unchecked_flags_sent_as_False (p : Page) (c : control) :
  c ∈ configForm p → isCheckbox c = true → ctl_checked c = false →
  ∃ body,
    inflight (step SubmitConfig p) = inflight p ++ [PostConfig body] ∧
    formDataGetAll (ctl_name c) body = ["False"] ∧
    (ctl_name c, "False") ∈ body.
Proof.
  intros Hin Hcb Hc. exists (configFormData (configForm p)). split; [done|].
  assert (formDataGetAll (ctl_name c) (configFormData (configForm p)) = ["False"]) as H.
  { apply forced_member; [|done].
    apply list_elem_of_In, filter_In. by rewrite <- list_elem_of_In. }
  split; [done|].
  unfold formDataGetAll in H.
  assert ("False" ∈ snd <$> List.filter
            (λ e : string * string, String.eqb (fst e) (ctl_name c))
            (configFormData (configForm p))) as Hm by (rewrite H; set_solver).
  apply list_elem_of_fmap in Hm as ([k v] & Hv & Hkv). simpl in Hv. subst v.
  apply list_elem_of_In, filter_In in Hkv as [Hkv Hk]. simpl in Hk.
  apply String.eqb_eq in Hk as ->. by apply list_elem_of_In.
Qed.

Lemma unchecked_flags_sent_as_False_witness :
  ∃ body,
    inflight (step SubmitConfig (servedPage exampleForm)) = [PostConfig body] ∧
    formDataGetAll "BACKTEST_MODE" body = ["False"] ∧
    ("BACKTEST_MODE", "False") ∈ body.
Proof.
  apply (unchecked_flags_sent_as_False (servedPage exampleForm)
           (checkbox "BACKTEST_MODE" false true)).
  - vm_compute. do 3 apply list_elem_of_further. apply list_elem_of_here.
  - reflexivity.
  - reflexivity.
Defined.

End ConfigSync.

(** ** PositionRenderer *)

Section RiskReward.





End RiskReward.

(** ** TradeHistoryRenderer *)

Section TradeHistory.

Implicit Types (t : Trade) (p : Page).

Lemma text_setText id v p : text (setText id v p) = <[id := v]> (text p).
Proof. done. Qed.

Lemma isWinning_spec t : isWinning t = true ↔ (0 < pnl_pct t)%Q.
Proof.
  unfold isWinning. rewrite negb_true_iff. split.
  - intros H. apply Qnot_le_lt. intros Hle. apply Qle_bool_iff in Hle. congruence.
  - intros H. destruct (Qle_bool (pnl_pct t) 0) eqn:E; [|done].
    apply Qle_bool_iff in E. by apply Qle_not_lt in E.
Qed.

Lemma length_winning trades : length (List.filter isWinning trades) = wins trades.
Proof.
  induction trades as [|t rest IH]; [done|]. simpl.
  destruct (Qlt_le_dec 0 (pnl_pct t)) as [Hlt|Hle].
  - rewrite (proj2 (isWinning_spec t) Hlt). simpl. by rewrite IH.
  - destruct (isWinning t) eqn:E; [|done].
    apply isWinning_spec in E. by apply Qle_not_lt in Hle.
Qed.

Lemma updateTradeHistory_nonempty t rest p :
  updateTradeHistory (Some (t :: rest)) p =
  setText "win-rate" (JS.toFixed 2 (winRatePercent (t :: rest)) +:+ "%")
    (setText "total-trades-count" (JS.stringOfNat (length (t :: rest)))
       (set_tradeHistory (tradeRow <$> (t :: rest)) p)).
Proof.
  unfold updateTradeHistory.
  replace (negb (bool_decide (is_Some (Some (t :: rest)))) ||
           (length (default [] (Some (t :: rest))) =? 0)%nat) with false by done.
  cbv zeta. cbn [default]. by rewrite length_winning.
Qed.

Lemma updateTradeHistory_text_other trades p id :
  id ≠ "win-rate" → id ≠ "total-trades-count" →
  text (updateTradeHistory trades p) !! id = text p !! id.
Proof.
  intros H1 H2. unfold updateTradeHistory. destruct (_ || _); [done|].
  cbv zeta. by rewrite !text_setText, !lookup_insert_ne.
Qed.

Lemma updateTradeHistory_view trades p :
  currentPosition (updateTradeHistory trades p) = currentPosition p ∧
  priceChart (updateTradeHistory trades p) = priceChart p ∧
  tdiChart (updateTradeHistory trades p) = tdiChart p ∧
  tradeHistory (updateTradeHistory trades p) =
    match trades with
    | Some (t :: rest) => tradeRow <$> (t :: rest)
    | _ => [NoHistoryRow]
    end.
Proof. by destruct trades as [[|t rest]|]. Qed.

Lemma updateTradeHistory_network trades p :
  inflight (updateTradeHistory trades p) = inflight p ∧
  currentSymbol (updateTradeHistory trades p) = currentSymbol p.
Proof. unfold updateTradeHistory. by destruct (_ || _). Qed.

(** C10.  With a trade list that is missing or empty, trade-history
    rendering writes the no-history row and nothing else: every text of the
    page, the dashboard trade count and win rate among them, stays as it
    was.  In the only other case the list has at least one trade, so the
    count the win-rate quotient is divided by is not zero and the quotient
    is a finite number, the double nearest to the share of winning
    trades. *)
Theorem empty_history_keeps_totals :
  (∀ p,
     updateTradeHistory None p = set_tradeHistory [NoHistoryRow] p ∧
     updateTradeHistory (Some []) p = set_tradeHistory [NoHistoryRow] p ∧
     tradeHistory (updateTradeHistory None p) = [NoHistoryRow] ∧
     tradeHistory (updateTradeHistory (Some []) p) = [NoHistoryRow] ∧
     text (updateTradeHistory None p) = text p ∧
     text (updateTradeHistory (Some []) p) = text p) ∧
  (∀ trades p,
     ((trades = None ∨ trades = Some []) ∧
      updateTradeHistory trades p = set_tradeHistory [NoHistoryRow] p) ∨
     (∃ l, trades = Some l ∧ (0 < length l)%nat ∧
           ¬ (numberOfNat (length l) == 0)%Q ∧
           JS.div (JS.Fin (numberOfNat (wins l))) (JS.Fin (numberOfNat (length l)))
             = JS.Fin (JS.nearest (numberOfNat (wins l) / numberOfNat (length l))) ∧
           text (updateTradeHistory trades p) !! "win-rate"
             = Some (JS.toFixed 2
                       (JS.mul (JS.div (JS.Fin (numberOfNat (wins l)))
                                       (JS.Fin (numberOfNat (length l))))
                               (JS.Fin 100)) +:+ "%"))).
Proof.
  split; [done|].
  intros [[|t rest]|] p; [left; split; [by right|done] | | left; split; [by left|done]].
  right. exists (t :: rest). split; [done|].
  assert (0 < length (t :: rest))%nat as Hpos by (simpl; lia).
  split; [done|]. split; [by apply numberOfNat_nonzero|].
  split; [by apply div_counts; [apply wins_le_length|]|].
  by rewrite updateTradeHistory_nonempty, text_setText, lookup_insert_eq.
Qed.

End TradeHistory.

(** ** PerformancePipeline *)

Section Pipeline.

Implicit Types (p : Page) (symbol : string) (data : PerformanceBody).

(** The success path, for a payload that has every part. *)
Lemma settled_complete symbol status data s pos prices tdi p :
  ok status = true → JS.truthyString (error data) = false →
  stats data = Some s → current_position data = Some pos →
  price_data data = Some prices → tdi_data data = Some tdi →
  loadPerformanceData_settled symbol (Response status (Some data)) p
  = updateTradeHistory (trades data) (renderedBeforeHistory s pos prices tdi p).
Proof.
  intros Hok Herr Hs Hpos Hpr Htdi.
  unfold loadPerformanceData_settled, thenCatch, loadPerformanceData_then.
  rewrite Hok, Herr, Hs, Hpos, Hpr, Htdi. reflexivity.
Qed.


(** Reading one text after several were written. *)
Ltac read_text :=
  rewrite ?text_setText; rewrite ?lookup_insert_ne by done; rewrite ?lookup_insert_eq.

Lemma updateTradeHistory_totals t rest p :
  text (updateTradeHistory (Some (t :: rest)) p) !! "win-rate"
    = Some (JS.toFixed 2 (winRatePercent (t :: rest)) +:+ "%") ∧
  text (updateTradeHistory (Some (t :: rest)) p) !! "total-trades-count"
    = Some (JS.stringOfNat (length (t :: rest))).
Proof. rewrite updateTradeHistory_nonempty. split; by read_text. Qed.

Lemma settled_totals symbol status data t rest p :
  ok status = true → completePayload data → trades data = Some (t :: rest) →
  text (loadPerformanceData_settled symbol (Response status (Some data)) p) !! "win-rate"
    = Some (JS.toFixed 2 (winRatePercent (t :: rest)) +:+ "%") ∧
  text (loadPerformanceData_settled symbol (Response status (Some data)) p)
    !! "total-trades-count" = Some (JS.stringOfNat (length (t :: rest))).
Proof.
  intros Hok (Herr & [s Hs] & [pos Hpos] & [prices Hpr] & [tdi Htdi]) Ht.
  rewrite (settled_complete _ _ _ s pos prices tdi) by done.
  rewrite Ht. apply updateTradeHistory_totals.
Qed.



Lemma completePayload_example symbol winRate trades :
  completePayload (examplePayload symbol winRate trades).
Proof. repeat split; by eexists. Defined.


Lemma showPerformanceError_guidance symbol e p :
  guidance (showPerformanceError symbol e p) =
  Some (if JS.includes e "Binance client is not initialized"
           || JS.includes e "API keys"
           || JS.includes e "'NoneType' object has no attribute 'get_historical_klines'"
        then connectivityInfo else genericInfo).
Proof.
  unfold showPerformanceError. cbv zeta.
  by destruct (priceChart _), (tdiChart _).
Qed.

Lemma classify_spec e :
  JS.includes e "Binance client is not initialized"
  || JS.includes e "API keys"
  || JS.includes e "'NoneType' object has no attribute 'get_historical_klines'" = true
  ↔ connectivityError e.
Proof.
  unfold connectivityError. rewrite !orb_true_iff, !includes_spec. tauto.
Qed.

Lemma settled_error symbol status data e p :
  ok status = true → error data = Some e → e ≠ EmptyString →
  loadPerformanceData_settled symbol (Response status (Some data)) p
  = showPerformanceError symbol e (hideLoading "performance-stats" p).
Proof.
  intros Hok He Hne. unfold loadPerformanceData_settled, thenCatch, loadPerformanceData_then.
  rewrite Hok, He. simpl. apply String.eqb_neq in Hne. by rewrite Hne.
Qed.

(** An empty [error] is falsy: the body is read as a payload, the read of
    the missing [stats] throws, and the [catch] shows its panel. *)
Lemma settled_empty_error symbol status p :
  ok status = true →
  loadPerformanceData_settled symbol (Response status (Some (errorBody EmptyString))) p
  = loadPerformanceData_catch symbol (hideLoading "performance-stats" p).
Proof. intros Hok. unfold loadPerformanceData_settled. by rewrite Hok. Qed.

Lemma guidance_differ : connectivityInfo ≠ genericInfo.
Proof. done. Qed.

(** C7.  When a performance response was parsed and carries an [error]
    text, the panel gives the API-key guidance exactly when the text
    contains one of the three known fragments, and the warm-up guidance
    exactly when it contains none: for every body with a non-empty error
    text, and for every body that is an error text and nothing else. *)
Theorem error_classification :
  (∀ symbol status data e p,
     ok status = true → error data = Some e → e ≠ EmptyString →
     let p' := loadPerformanceData_settled symbol (Response status (Some data)) p in
     (connectivityError e ↔ guidance p' = Some connectivityInfo) ∧
     (¬ connectivityError e ↔ guidance p' = Some genericInfo)) ∧
  (∀ symbol status e p,
     ok status = true →
     let p' := loadPerformanceData_settled symbol
                 (Response status (Some (errorBody e))) p in
     (connectivityError e ↔ guidance p' = Some connectivityInfo) ∧
     (¬ connectivityError e ↔ guidance p' = Some genericInfo)) ∧
  connectivityInfo ≠ genericInfo.
Proof.
  assert (∀ symbol status data e p,
     ok status = true → error data = Some e → e ≠ EmptyString →
     let p' := loadPerformanceData_settled symbol (Response status (Some data)) p in
     (connectivityError e ↔ guidance p' = Some connectivityInfo) ∧
     (¬ connectivityError e ↔ guidance p' = Some genericInfo)) as Hmain.
  { intros symbol status data e p Hok He Hne p'. subst p'.
    rewrite (settled_error symbol status data e) by done.
    rewrite showPerformanceError_guidance, <- classify_spec.
    destruct (_ || _); split; split; try done; intros [= H]; by destruct guidance_differ. }
  split; [exact Hmain|]. split; [|exact guidance_differ].
  intros symbol status e p Hok. destruct (decide (e = EmptyString)) as [->|Hne].
  - cbv zeta. rewrite settled_empty_error by done.
    assert (¬ connectivityError EmptyString) as Hno.
    { rewrite <- classify_spec. by vm_compute. }
    by split; split.
  - by apply Hmain.
Qed.

Lemma error_classification_witness :
  (let p' := loadPerformanceData_settled "BTCUSDT"
               (Response 200 (Some (errorBody "Binance client is not initialized")))
               readyPage in
   (connectivityError "Binance client is not initialized"
      ↔ guidance p' = Some connectivityInfo) ∧
   (¬ connectivityError "Binance client is not initialized"
      ↔ guidance p' = Some genericInfo)) ∧
  guidance (loadPerformanceData_settled "BTCUSDT"
              (Response 200 (Some (errorBody "Binance client is not initialized")))
              readyPage) = Some connectivityInfo ∧
  guidance (loadPerformanceData_settled "BTCUSDT"
              (Response 200 (Some (errorBody "No data for BTCUSDT")))
              readyPage) = Some genericInfo.
Proof.
  split; [|split; reflexivity].
  apply (proj1 error_classification "BTCUSDT" 200%nat
           (errorBody "Binance client is not initialized")
           "Binance client is not initialized" readyPage).
  - reflexivity.
  - reflexivity.
  - intros H. discriminate H.
Defined.

(** The sibling: the first [then] of the performance fetch throws on a
    status that is not [ok], whatever the body. *)
Lemma performance_status_checked symbol status body p :
  ok status = false →
  loadPerformanceData_settled symbol (Response status body) p
  = loadPerformanceData_catch symbol p.
Proof. intros H. unfold loadPerformanceData_settled. by rewrite H. Qed.

(** C3.  Only the performance fetch looks at the status of the response.
    The other six calls go on with any body that parses: a configuration
    load answered with status 500 and a JSON error object ends like a
    successful load, without an alert; a configuration save answered with
    status 500 and [{success: true}] reports success; a selection load
    answered with status 503 replaces the selection.  The performance fetch
    sends every status outside 200..299 to its [catch]. *)
Theorem non2xx_taken_as_success :
  (∀ status body p,
     loadConfig_settled (Response status (Some body)) p
     = loadConfig_settled (Response 200 (Some body)) p) ∧
  (∀ status body p,
     saveConfig_settled (Response status (Some body)) p
     = saveConfig_settled (Response 200 (Some body)) p) ∧
  (∀ status body p,
     loadTradingSymbols_settled (Response status (Some body)) p
     = loadTradingSymbols_settled (Response 200 (Some body)) p) ∧
  (∀ status body p,
     loadAvailableSymbols_settled (Response status (Some body)) p
     = loadAvailableSymbols_settled (Response 200 (Some body)) p) ∧
  (∀ status body p,
     saveSelectedSymbols_settled (Response status (Some body)) p
     = saveSelectedSymbols_settled (Response 200 (Some body)) p) ∧
  (∀ symbol status body p,
     runStrategy_settled symbol (Response status (Some body)) p
     = runStrategy_settled symbol (Response 200 (Some body)) p) ∧
  (let p := step (Settle 0 (ConfigReply
                   (Response 500 (Some [("error", "Internal Server Error")]))))
                 (onDOMContentLoaded (servedPage exampleForm)) in
   alerts p = [] ∧ loading p = ∅ ∧ inflight p = [GetTradingSymbols]) ∧
  (let p := step (Settle 0 (AckReply
                   (Response 500 (Some {| success := true; action := None;
                                          ack_error := None |}))))
                 (step SubmitConfig (servedPage exampleForm)) in
   alerts p = [("Configuration saved successfully!", "success")]) ∧
  (let p := step (Settle 1 (SymbolsReply (Response 503 (Some ["BTCUSDT"]))))
                 (onDOMContentLoaded (servedPage exampleForm)) in
   selectedSymbols p = ["BTCUSDT"] ∧ alerts p = []) ∧
  (∀ symbol body p,
     loadPerformanceData_settled symbol (Response 500 body) p
     = loadPerformanceData_catch symbol p).
Proof. by repeat split. Qed.

(** *** Overlapping fetches *)

Lemma keepsNetwork_andThen a b :
  keepsNetwork a → keepsNetwork b → keepsNetwork (a ;;; b).
Proof.
  intros Ha Hb p. unfold andThen. specialize (Ha p).
  destruct (a p) as [q [|]]; simpl in *; [|done].
  destruct (Hb q) as [-> ->]. done.
Qed.

Lemma keepsNetwork_run f :
  (∀ p, inflight (f p) = inflight p ∧ currentSymbol (f p) = currentSymbol p) →
  keepsNetwork (run f).
Proof. intros H p. apply H. Qed.

Lemma showPerformanceError_network symbol e p :
  inflight (showPerformanceError symbol e p) = inflight p ∧
  currentSymbol (showPerformanceError symbol e p) = currentSymbol p.
Proof. unfold showPerformanceError. cbv zeta. by destruct (priceChart _), (tdiChart _). Qed.

Lemma then_keepsNetwork symbol data : keepsNetwork (loadPerformanceData_then symbol data).
Proof.
  unfold loadPerformanceData_then. apply keepsNetwork_andThen; [by apply keepsNetwork_run|].
  destruct (JS.truthyString _).
  - apply keepsNetwork_run, showPerformanceError_network.
  - repeat apply keepsNetwork_andThen.
    + destruct (stats data); [by apply keepsNetwork_run | by intros ?].
    + destruct (current_position data); [by apply keepsNetwork_run | by intros ?].
    + intros p. unfold updatePriceChart. by destruct (price_data data).
    + intros p. unfold updateTDIChart. by destruct (tdi_data data).
    + apply keepsNetwork_run, updateTradeHistory_network.
Qed.

(** No handler of the performance fetch reads or writes the active
    symbol or the requests in flight, whatever the response. *)
Lemma settled_network symbol r p :
  inflight (loadPerformanceData_settled symbol r p) = inflight p ∧
  currentSymbol (loadPerformanceData_settled symbol r p) = currentSymbol p.
Proof.
  unfold loadPerformanceData_settled. destruct r as [|status [data|]]; try done.
  - destruct (negb (ok status)); [done|]. unfold thenCatch.
    pose proof (then_keepsNetwork symbol data p) as H.
    destruct (loadPerformanceData_then symbol data p) as [q [|]]; simpl in *; [done|].
    by destruct H as [<- <-].
  - by destruct (negb (ok status)).
Qed.

(** What a complete payload is rendered to depends on the payload alone. *)
Lemma perfView_complete symbol status data s pos prices tdi p :
  ok status = true → JS.truthyString (error data) = false →
  stats data = Some s → current_position data = Some pos →
  price_data data = Some prices → tdi_data data = Some tdi →
  perfView (loadPerformanceData_settled symbol (Response status (Some data)) p)
  = payloadView s pos prices tdi (trades data).
Proof.
  intros Hok Herr Hs Hpos Hpr Htdi.
  rewrite (settled_complete symbol status data s pos prices tdi) by done.
  unfold perfView, payloadView.
  destruct (updateTradeHistory_view (trades data) (renderedBeforeHistory s pos prices tdi p))
    as (-> & -> & -> & ->).
  rewrite !updateTradeHistory_text_other by done.
  unfold renderedBeforeHistory, writeStats.
  cbn [text set_tdiChart set_priceChart set_currentPosition
       currentPosition priceChart tdiChart].
  rewrite !text_setText.
  f_equal; by rewrite ?lookup_insert_ne by done; rewrite lookup_insert_eq.
Qed.

Lemma change_step a p :
  a ≠ EmptyString →
  step (ChangePerformanceSymbol a) p = loadPerformanceData a (set_currentSymbol a p).
Proof. intros Ha. simpl. apply String.eqb_neq in Ha. by rewrite Ha. Qed.

Lemma settle_performance i symbol r p :
  inflight p !! i = Some (GetPerformance symbol) →
  settle i (PerformanceReply r) p
  = loadPerformanceData_settled symbol r (set_inflight (delete i (inflight p)) p).
Proof. intros H. unfold settle. by rewrite H. Qed.

Lemma solo_view n a status data s pos prices tdi p :
  n = length (inflight p) →
  a ≠ EmptyString → ok status = true → JS.truthyString (error data) = false →
  stats data = Some s → current_position data = Some pos →
  price_data data = Some prices → tdi_data data = Some tdi →
  perfView (steps (soloEvents n a (Response status (Some data))) p)
  = payloadView s pos prices tdi (trades data).
Proof.
  intros -> Ha Hok Herr Hs Hpos Hpr Htdi. unfold soloEvents, steps. cbn [fold_left].
  rewrite change_step by done. cbn [step].
  rewrite (settle_performance _ a).
  - by apply perfView_complete.
  - apply lookup_last.
Qed.

Lemma race_final n a b status data rb s pos prices tdi p :
  n = length (inflight p) →
  a ≠ EmptyString → b ≠ EmptyString →
  ok status = true → JS.truthyString (error data) = false →
  stats data = Some s → current_position data = Some pos →
  price_data data = Some prices → tdi_data data = Some tdi →
  let final := steps (raceEvents n a b (Response status (Some data)) rb) p in
  perfView final = payloadView s pos prices tdi (trades data) ∧
  currentSymbol final = b ∧ inflight final = inflight p ∧
  ∃ q, final = loadPerformanceData_settled a (Response status (Some data)) q.
Proof.
  intros -> Ha Hb Hok Herr Hs Hpos Hpr Htdi. unfold raceEvents, steps. cbn [fold_left].
  rewrite !change_step by done. cbn [step].
  pose (p2 := loadPerformanceData b (set_currentSymbol b
                (loadPerformanceData a (set_currentSymbol a p)))).
  assert (inflight p2 = (inflight p ++ [GetPerformance a]) ++ [GetPerformance b]) as H2 by done.
  assert (currentSymbol p2 = b) as Hc2 by done.
  fold p2.
  rewrite (settle_performance (S (length (inflight p))) b rb p2)
    by (rewrite H2; apply lookup_last2).
  rewrite H2, delete_last2.
  pose (p3 := loadPerformanceData_settled b rb
                (set_inflight (inflight p ++ [GetPerformance a]) p2)).
  destruct (settled_network b rb (set_inflight (inflight p ++ [GetPerformance a]) p2))
    as [H3 Hc3].
  fold p3 in H3, Hc3 |- *. simpl in H3, Hc3.
  rewrite (settle_performance (length (inflight p)) a _ p3) by (rewrite H3; apply lookup_last).
  rewrite H3, delete_last. cbv zeta.
  split; [by apply perfView_complete|].
  destruct (settled_network a (Response status (Some data)) (set_inflight (inflight p) p3))
    as [-> ->].
  simpl. rewrite Hc3. do 2 (split; [done|]). by eexists.
Qed.

Lemma settled_failure symbol r p :
  failedResponse r = true →
  text (loadPerformanceData_settled symbol r p) = text p ∧
  tradeHistory (loadPerformanceData_settled symbol r p) = tradeHistory p ∧
  ∃ e info, currentPosition (loadPerformanceData_settled symbol r p)
            = PanelError e info symbol.
Proof.
  intros Hf. unfold loadPerformanceData_settled.
  assert (text (loadPerformanceData_catch symbol p) = text p ∧
          tradeHistory (loadPerformanceData_catch symbol p) = tradeHistory p ∧
          ∃ e info, currentPosition (loadPerformanceData_catch symbol p)
                    = PanelError e info symbol) as Hcatch
    by (repeat split; by do 2 eexists).
  destruct r as [|status [data|]]; [done| |by destruct (negb (ok status))].
  simpl in Hf. destruct (negb (ok status)); [done|]. simpl in Hf.
  unfold thenCatch, loadPerformanceData_then, andThen, run. rewrite Hf.
  unfold showPerformanceError. cbv zeta. simpl.
  destruct (priceChart p); simpl; destruct (tdiChart p); simpl;
    (repeat split; by do 2 eexists).
Qed.

Lemma race_last n a b ra rb p :
  n = length (inflight p) → a ≠ EmptyString → b ≠ EmptyString →
  ∃ q, steps [ChangePerformanceSymbol a; ChangePerformanceSymbol b;
              Settle (S n) (PerformanceReply rb)] p = q ∧
       steps (raceEvents n a b ra rb) p
       = loadPerformanceData_settled a ra (set_inflight (inflight p) q).
Proof.
  intros -> Ha Hb. eexists. split; [done|].
  unfold raceEvents, steps. cbn [fold_left].
  rewrite !change_step by done. cbn [step].
  pose (p2 := loadPerformanceData b (set_currentSymbol b
                (loadPerformanceData a (set_currentSymbol a p)))).
  assert (inflight p2 = (inflight p ++ [GetPerformance a]) ++ [GetPerformance b]) as H2 by done.
  fold p2.
  rewrite (settle_performance (S (length (inflight p))) b rb p2)
    by (rewrite H2; apply lookup_last2).
  rewrite H2, delete_last2.
  pose (p3 := loadPerformanceData_settled b rb
                (set_inflight (inflight p ++ [GetPerformance a]) p2)).
  destruct (settled_network b rb (set_inflight (inflight p ++ [GetPerformance a]) p2))
    as [H3 _].
  fold p3 in H3 |- *. simpl in H3.
  rewrite (settle_performance (length (inflight p)) a _ p3) by (rewrite H3; apply lookup_last).
  by rewrite H3, delete_last.
Qed.

Lemma late_failure p a b ra rb :
  a ≠ EmptyString → b ≠ EmptyString → failedResponse ra = true →
  let before :=
    steps [ChangePerformanceSymbol a; ChangePerformanceSymbol b;
           Settle (S (length (inflight p))) (PerformanceReply rb)] p in
  let final := steps (raceEvents (length (inflight p)) a b ra rb) p in
  text final = text before ∧
  tradeHistory final = tradeHistory before ∧
  ∃ e info, currentPosition final = PanelError e info a.
Proof.
  intros Ha Hb Hf. cbv zeta.
  destruct (race_last (length (inflight p)) a b ra rb p eq_refl Ha Hb) as (q & Hq & ->).
  rewrite Hq.
  by destruct (settled_failure a ra (set_inflight (inflight p) q) Hf) as (-> & -> & H).
Qed.

(** C2 as stated does not hold.  The request for BTCUSDT is sent, then the
    one for ETHUSDT, which is answered first with a complete payload; the
    late answer for BTCUSDT is an error body.  The section then shows the
    error panel of BTCUSDT over the statistics, the trade rows and the
    dashboard totals of ETHUSDT, which is not what the response that
    settled last is rendered to on its own. *)
Lemma late_error_keeps_earlier_figures :
  let late := Response 200 (Some (errorBody "No data for BTCUSDT")) in
  let final :=
    steps (raceEvents (length (inflight readyPage)) "BTCUSDT" "ETHUSDT" late
             (Response 200 (Some (examplePayload "ETHUSDT" (1 # 4)%Q exampleTrades))))
          readyPage in
  let alone :=
    steps (soloEvents (length (inflight readyPage)) "BTCUSDT" late) readyPage in
  currentPosition final = PanelError "No data for BTCUSDT" genericInfo "BTCUSDT" ∧
  text final !! "symbol-win-rate" = Some "25.00%" ∧
  text alone !! "symbol-win-rate" = Some "0%" ∧
  tradeHistory final = tradeRow <$> exampleTrades ∧
  tradeHistory alone = [LoadingHistoryRow] ∧
  text final !! "win-rate" = Some "33.33%" ∧
  perfView final ≠ perfView alone.
Proof.
  cbv zeta. repeat (split; [by vm_compute|]).
  intros H. apply (f_equal viewWinRate) in H. vm_compute in H. discriminate H.
Qed.

(** C2, amended.  A request for symbol [a] is sent, then one for symbol
    [b]; the response for [b] settles first, whatever it is, and the
    response for [a] settles last.  When that late response has an ok
    status and a complete payload, the performance section shows what the
    payload alone is rendered to (the same view as when [a] is requested
    and answered on any page with no other request around), its position
    panel is the one of the payload's position, and with a trade in the
    payload the dashboard trade count and win rate are those of its trade
    list, while the active symbol is still [b]: the late response is
    neither matched against the active symbol nor dropped.  When the late
    response is not rendered (no transport, a status that is not ok, a
    body that does not parse, a body with an error text), it leaves every
    text and the trade table as the response for [b] left them and puts
    the error panel of [a] over them. *)
Theorem last_settled_wins :
  (∀ p p' a b status data rb,
     a ≠ EmptyString → b ≠ EmptyString → ok status = true → completePayload data →
     let final :=
       steps (raceEvents (length (inflight p)) a b (Response status (Some data)) rb) p in
     perfView final
       = perfView (steps (soloEvents (length (inflight p')) a
                            (Response status (Some data))) p') ∧
     (∀ pos, current_position data = Some pos →
             currentPosition final = positionPanel pos) ∧
     (∀ t rest,
        trades data = Some (t :: rest) →
        text final !! "win-rate"
          = Some (JS.toFixed 2 (winRatePercent (t :: rest)) +:+ "%") ∧
        text final !! "total-trades-count"
          = Some (JS.stringOfNat (length (t :: rest)))) ∧
     currentSymbol final = b ∧
     inflight final = inflight p) ∧
  (∀ p a b ra rb,
     a ≠ EmptyString → b ≠ EmptyString → failedResponse ra = true →
     let before :=
       steps [ChangePerformanceSymbol a; ChangePerformanceSymbol b;
              Settle (S (length (inflight p))) (PerformanceReply rb)] p in
     let final := steps (raceEvents (length (inflight p)) a b ra rb) p in
     text final = text before ∧
     tradeHistory final = tradeHistory before ∧
     ∃ e info, currentPosition final = PanelError e info a).
Proof.
  split; [|apply late_failure].
  intros p p' a b status data rb Ha Hb Hok Hc.
  pose proof Hc as (Herr & [s Hs] & [pos Hpos] & [prices Hpr] & [tdi Htdi]).
  rewrite (solo_view _ a status data s pos prices tdi p') by done.
  destruct (race_final (length (inflight p)) a b status data rb s pos prices tdi p)
    as (Hv & Hcur & Hi & q & Hq); try done.
  cbv zeta. split; [exact Hv|]. split; [|split; [|by split]].
  - intros pos' Hpos'. rewrite Hpos in Hpos'. injection Hpos' as <-.
    change (viewPosition
              (perfView (steps (raceEvents (length (inflight p)) a b
                                  (Response status (Some data)) rb) p))
            = positionPanel pos).
    by rewrite Hv.
  - intros t rest Ht. rewrite Hq. by apply settled_totals.
Qed.

Lemma last_settled_wins_witness :
  let final :=
    steps (raceEvents (length (inflight readyPage)) "BTCUSDT" "ETHUSDT"
             (Response 200 (Some (examplePayload "BTCUSDT" (1 # 2)%Q exampleTrades)))
             (Response 200 (Some (examplePayload "ETHUSDT" (1 # 4)%Q []))))
          readyPage in
  perfView final
    = perfView (steps (soloEvents (length (inflight (servedPage []))) "BTCUSDT"
                         (Response 200
                            (Some (examplePayload "BTCUSDT" (1 # 2)%Q exampleTrades))))
                      (servedPage [])) ∧
  (∀ pos, current_position (examplePayload "BTCUSDT" (1 # 2)%Q exampleTrades) = Some pos →
          currentPosition final = positionPanel pos) ∧
  (∀ t rest,
     trades (examplePayload "BTCUSDT" (1 # 2)%Q exampleTrades) = Some (t :: rest) →
     text final !! "win-rate"
       = Some (JS.toFixed 2 (winRatePercent (t :: rest)) +:+ "%") ∧
     text final !! "total-trades-count" = Some (JS.stringOfNat (length (t :: rest)))) ∧
  currentSymbol final = "ETHUSDT" ∧
  inflight final = inflight readyPage.
Proof.
  apply (proj1 last_settled_wins readyPage (servedPage []) "BTCUSDT" "ETHUSDT" 200%nat
           (examplePayload "BTCUSDT" (1 # 2)%Q exampleTrades)
           (Response 200 (Some (examplePayload "ETHUSDT" (1 # 4)%Q [])))).
  - intros H. discriminate H.
  - intros H. discriminate H.
  - reflexivity.
  - apply completePayload_example.
Defined.

End Pipeline.

(** ** More on the symbol sets *)

Section SymbolSetMore.
Implicit Types (p : Page) (symbol query : string).

Lemma select_selected i symbol p :
  symbol ∈ selectedSymbols (onAvailableItemClick i symbol p).
Proof.
  unfold onAvailableItemClick.
  destruct (JS.arrayIncludes (selectedSymbols p) symbol) eqn:E; simpl.
  - by apply arrayIncludes_spec.
  - cbv zeta. rewrite (proj1 (proj2 (update_selected_fields _))). simpl.
    apply elem_of_app. right. apply list_elem_of_here.
Qed.

(** X1.  Selecting a symbol that is selected already changes nothing: the
    click listener run a second time for the same symbol, on whatever
    entry, leaves the page as the first run left it. *)
Theorem select_twice_is_select_once i j symbol p :
  onAvailableItemClick j symbol (onAvailableItemClick i symbol p)
  = onAvailableItemClick i symbol p.
Proof.
  pose proof (select_selected i symbol p) as H.
  apply arrayIncludes_spec in H.
  unfold onAvailableItemClick at 1. by rewrite H.
Qed.

Lemma indexOf_Some l x i : JS.indexOf l x = Some i → l !! i = Some x.
Proof.
  revert i. induction l as [|y l IH]; intros i; simpl; [done|].
  destruct (String.eqb y x) eqn:E.
  - intros [= <-]. apply String.eqb_eq in E. by subst.
  - destruct (JS.indexOf l x) as [k|]; simpl; [|done].
    intros [= <-]. simpl. by apply IH.
Qed.

Lemma indexOf_None l x : JS.indexOf l x = None ↔ x ∉ l.
Proof.
  induction l as [|y l IH]; simpl.
  - split; [intros _; apply not_elem_of_nil | done].
  - destruct (String.eqb y x) eqn:E.
    + apply String.eqb_eq in E as ->. split; [done|]. intros H. destruct H. apply list_elem_of_here.
    + apply String.eqb_neq in E. rewrite not_elem_of_cons, <- IH.
      destruct (JS.indexOf l x); simpl; split; try done; try tauto.
      by intros [_ ?].
Qed.

Lemma indexOf_app_last l x : x ∉ l → JS.indexOf (l ++ [x]) x = Some (length l).
Proof.
  induction l as [|y l IH]; simpl; intros H.
  - by rewrite String.eqb_refl.
  - apply not_elem_of_cons in H as [Hne H].
    apply not_eq_sym, String.eqb_neq in Hne. rewrite Hne, IH by done. done.
Qed.

Lemma deselect_selected symbol p :
  selectedSymbols (onRemoveButtonClick symbol p) =
  match JS.indexOf (selectedSymbols p) symbol with
  | Some index => delete index (selectedSymbols p)
  | None => selectedSymbols p
  end.
Proof.
  unfold onRemoveButtonClick. cbv zeta.
  rewrite (proj2 (filterSymbols_fields _ _)).
  set (q := match JS.indexOf _ _ with Some _ => _ | None => _ end).
  assert (selectedSymbols
    (if negb (JS.arrayIncludes (availableSymbols (updateSelectedSymbolsList q)) symbol)
     then set_availableSymbols (availableSymbols (updateSelectedSymbolsList q) ++ [symbol])
            (updateSelectedSymbolsList q)
     else updateSelectedSymbolsList q) = selectedSymbols (updateSelectedSymbolsList q)) as ->
    by by destruct (negb _).
  rewrite (proj1 (proj2 (update_selected_fields q))).
  subst q. by destruct (JS.indexOf _ _).
Qed.

Lemma deselect_available symbol p :
  availableSymbols (onRemoveButtonClick symbol p) =
  if JS.arrayIncludes (availableSymbols p) symbol then availableSymbols p
  else availableSymbols p ++ [symbol].
Proof.
  unfold onRemoveButtonClick. cbv zeta.
  rewrite (proj1 (filterSymbols_fields _ _)).
  set (q := match JS.indexOf _ _ with Some _ => _ | None => _ end).
  assert (availableSymbols q = availableSymbols p) as Hq
    by (subst q; by destruct (JS.indexOf _ _)).
  rewrite (proj1 (update_selected_fields q)), Hq.
  destruct (JS.arrayIncludes (availableSymbols p) symbol); simpl; [|done].
  by rewrite (proj1 (update_selected_fields q)).
Qed.

Lemma select_selected_cases i symbol p :
  selectedSymbols (onAvailableItemClick i symbol p) =
  if JS.arrayIncludes (selectedSymbols p) symbol then selectedSymbols p
  else selectedSymbols p ++ [symbol].
Proof.
  unfold onAvailableItemClick.
  destruct (JS.arrayIncludes (selectedSymbols p) symbol); simpl; [done|].
  cbv zeta. by rewrite (proj1 (proj2 (update_selected_fields _))).
Qed.

Lemma step_selected_NoDup o p :
  NoDup (selectedSymbols p) → NoDup (selectedSymbols (step (eventOf o) p)).
Proof.
  intros Hnd. destruct o as [i|i|query]; simpl.
  - destruct (availableList p !! i) as [[|symbol]|]; try done.
    rewrite select_selected_cases.
    destruct (JS.arrayIncludes (selectedSymbols p) symbol) eqn:E; [done|].
    apply arrayIncludes_false in E.
    apply NoDup_app. split; [done|]. split; [|apply NoDup_singleton].
    by intros x Hx ->%list_elem_of_singleton.
  - destruct (selectedList p !! i) as [[|symbol]|]; try done.
    rewrite deselect_selected. destruct (JS.indexOf _ _); [|done].
    eapply sublist_NoDup; [exact Hnd | apply sublist_delete].
  - by rewrite (proj2 (filterSymbols_fields _ _)).
Qed.

(** X2.  A selection without duplicates stays without duplicates under
    every sequence of select, deselect and filter operations. *)
Theorem selection_stays_duplicate_free ops p :
  NoDup (selectedSymbols p) →
  NoDup (selectedSymbols (steps (eventOf <$> ops) p)).
Proof.
  revert p. induction ops as [|o ops IH]; intros p Hp; [done|].
  simpl. apply IH. by apply step_selected_NoDup.
Qed.

Lemma selection_stays_duplicate_free_witness :
  NoDup (selectedSymbols readyPage) ∧
  NoDup (selectedSymbols
           (steps (eventOf <$> [Select 0; Deselect 0; Select 0; Filter "bn"]) readyPage)).
Proof.
  assert (NoDup (selectedSymbols readyPage)) as Hnd
    by (apply (bool_decide_unpack _); vm_compute; exact I).
  split; [exact Hnd|].
  apply (selection_stays_duplicate_free
           [Select 0; Deselect 0; Select 0; Filter "bn"] readyPage Hnd).
Defined.

(** X3.  Selecting an available entry and then removing the selected entry
    it became restores the selection, and the stored universe when it
    held the symbol. *)
Theorem select_then_deselect_restores i symbol p :
  availableList p !! i = Some (AvailableItem symbol) →
  (symbol ∉ selectedSymbols p) →
  let p' := steps [ClickAvailable i; ClickRemove (length (selectedSymbols p))] p in
  selectedSymbols p' = selectedSymbols p ∧
  (symbol ∈ availableSymbols p → availableSymbols p' = availableSymbols p).
Proof.
  intros Hi Hout.
  destruct (select_effect i symbol p Hi Hout) as (Hf & Hs & Hl & Hsl & Ht).
  unfold steps. cbn [fold_left]. set (p1 := step (ClickAvailable i) p) in *.
  cbn [step]. rewrite Hsl.
  rewrite list_lookup_fmap, lookup_last. simpl.
  split.
  - rewrite deselect_selected, Hs, indexOf_app_last by done. apply delete_last.
  - intros Hin. rewrite deselect_available.
    destruct Hf as (_ & _ & -> & _).
    by rewrite (proj2 (arrayIncludes_spec _ _) Hin).
Qed.

Lemma select_then_deselect_restores_witness :
  let p' := steps [ClickAvailable 0; ClickRemove (length (selectedSymbols readyPage))]
                  readyPage in
  selectedSymbols p' = selectedSymbols readyPage ∧
  ("BTCUSDT" ∈ availableSymbols readyPage →
   availableSymbols p' = availableSymbols readyPage).
Proof.
  apply (select_then_deselect_restores 0 "BTCUSDT" readyPage).
  - reflexivity.
  - apply (bool_decide_unpack _). vm_compute. exact I.
Defined.

Lemma step_universe_prefix o p :
  availableSymbols p `prefix_of` availableSymbols (step (eventOf o) p).
Proof.
  destruct o as [i|i|query].
  - by rewrite (step_keeps_universe (Select i)).
  - simpl. destruct (selectedList p !! i) as [[|symbol]|]; try done.
    rewrite deselect_available. destruct (JS.arrayIncludes _ _); [done|].
    by apply prefix_app_r.
  - by rewrite (step_keeps_universe (Filter query)).
Qed.

(** X4.  Under select, deselect and filter the stored universe is only ever
    extended at its end: a deselect appends the symbol when the universe
    lacks it and leaves the universe as it is when it holds the symbol,
    so a deselected symbol is always in the universe. *)
Theorem universe_only_grows :
  (∀ ops p, availableSymbols p `prefix_of` availableSymbols (steps (eventOf <$> ops) p)) ∧
  (∀ symbol p, symbol ∈ availableSymbols (onRemoveButtonClick symbol p)) ∧
  (∀ symbol p, (symbol ∉ availableSymbols p) →
     availableSymbols (onRemoveButtonClick symbol p) = availableSymbols p ++ [symbol]) ∧
  (∀ symbol p, symbol ∈ availableSymbols p →
     availableSymbols (onRemoveButtonClick symbol p) = availableSymbols p).
Proof.
  split; [|split; [|split]].
  - intros ops. induction ops as [|o ops IH]; intros p; [done|].
    simpl. etrans; [apply (step_universe_prefix o)|apply IH].
  - intros symbol p. rewrite deselect_available.
    destruct (JS.arrayIncludes _ _) eqn:E; [by apply arrayIncludes_spec|].
    apply elem_of_app. right. apply list_elem_of_here.
  - intros symbol p H. rewrite deselect_available.
    by rewrite (proj2 (arrayIncludes_false _ _) H).
  - intros symbol p H. rewrite deselect_available.
    by rewrite (proj2 (arrayIncludes_spec _ _) H).
Qed.

Lemma universe_only_grows_witness :
  ("XRPUSDT" ∉ availableSymbols readyPage) ∧
  availableSymbols (onRemoveButtonClick "XRPUSDT" readyPage)
  = availableSymbols readyPage ++ ["XRPUSDT"].
Proof.
  assert ("XRPUSDT" ∉ availableSymbols readyPage) as Hnew
    by (apply (bool_decide_unpack _); vm_compute; exact I).
  split; [exact Hnew|].
  apply (proj1 (proj2 (proj2 universe_only_grows)) "XRPUSDT" readyPage Hnew).
Defined.


End SymbolSetMore.

(** ** What the performance handlers leave alone *)

(** A component of the page the performance renderers do not write. *)

Section PerformanceFrame.

Context {A : Type} (f : Page → A).
Hypothesis f_text : ∀ v p, f (set_text v p) = f p.
Hypothesis f_loading : ∀ v p, f (set_loading v p) = f p.
Hypothesis f_alerts : ∀ v p, f (set_alerts v p) = f p.
Hypothesis f_currentPosition : ∀ v p, f (set_currentPosition v p) = f p.
Hypothesis f_priceChart : ∀ v p, f (set_priceChart v p) = f p.
Hypothesis f_tdiChart : ∀ v p, f (set_tdiChart v p) = f p.
Hypothesis f_tradeHistory : ∀ v p, f (set_tradeHistory v p) = f p.

Lemma keeps_andThen a b : keeps f a → keeps f b → keeps f (a ;;; b).
Proof.
  intros Ha Hb p. unfold andThen. specialize (Ha p).
  destruct (a p) as [q [|]]; simpl in *; [|done]. by rewrite Hb.
Qed.

Lemma keeps_run g : (∀ p, f (g p) = f p) → keeps f (run g).
Proof. intros H p. apply H. Qed.

Lemma f_setText id v p : f (setText id v p) = f p.
Proof. apply f_text. Qed.

Lemma f_updateTradeHistory trades p : f (updateTradeHistory trades p) = f p.
Proof.
  unfold updateTradeHistory. destruct (_ || _); [apply f_tradeHistory|].
  cbv zeta. by rewrite !f_setText, f_tradeHistory.
Qed.

Lemma f_showPerformanceError symbol e p : f (showPerformanceError symbol e p) = f p.
Proof.
  unfold showPerformanceError, showAlert. cbv zeta.
  destruct (priceChart _), (tdiChart _);
    by rewrite ?f_tdiChart, ?f_priceChart, ?f_currentPosition, ?f_alerts.
Qed.

Lemma f_catch symbol p : f (loadPerformanceData_catch symbol p) = f p.
Proof.
  unfold loadPerformanceData_catch, showAlert, hideLoading. cbv zeta.
  by rewrite f_currentPosition, f_alerts, f_loading.
Qed.

Lemma keeps_then symbol data : keeps f (loadPerformanceData_then symbol data).
Proof.
  unfold loadPerformanceData_then. apply keeps_andThen.
  { apply keeps_run. intros p. apply f_loading. }
  destruct (JS.truthyString _).
  - apply keeps_run, f_showPerformanceError.
  - repeat apply keeps_andThen.
    + destruct (stats data) as [s|]; [|by intros ?]. apply keeps_run. intros p.
      unfold writeStats. cbv zeta. by rewrite !f_setText.
    + destruct (current_position data) as [pos|]; [|by intros ?]. apply keeps_run. intros p.
      apply f_currentPosition.
    + intros p. unfold updatePriceChart.
      destruct (price_data data); simpl; by rewrite ?f_priceChart.
    + intros p. unfold updateTDIChart.
      destruct (tdi_data data); simpl; by rewrite ?f_tdiChart.
    + apply keeps_run, f_updateTradeHistory.
Qed.

Lemma f_settled symbol r p : f (loadPerformanceData_settled symbol r p) = f p.
Proof.
  unfold loadPerformanceData_settled. destruct r as [|status [data|]].
  - apply f_catch.
  - destruct (negb (ok status)); [apply f_catch|]. unfold thenCatch.
    pose proof (keeps_then symbol data p) as H.
    destruct (loadPerformanceData_then symbol data p) as [q [|]]; simpl in *; [done|].
    by rewrite f_catch.
  - destruct (negb (ok status)); apply f_catch.
Qed.

End PerformanceFrame.

(** ** Invariants over all events *)

Section AllEvents.
Implicit Types (p : Page) (symbol : string).



Lemma selectionView_loadPerformanceData symbol p :
  selectionView (loadPerformanceData symbol p) = selectionView p.
Proof. done. Qed.





(** X6.  Whatever the response, the handlers of the performance fetch leave
    the symbol collections, both symbol lists, the search box, the
    chooser, the configuration form, the active symbol and the requests in
    flight untouched. *)
Theorem performance_fetch_frame symbol r p :
  symbolState (loadPerformanceData_settled symbol r p) = symbolState p.
Proof. by apply f_settled. Qed.

End AllEvents.

(** ** The search box and the active count *)

Section FilterMore.
Implicit Types (p : Page) (symbol query : string).

Lemma upper_char_idem c : JS.upper_char (JS.upper_char c) = JS.upper_char c.
Proof. destruct c as [[] [] [] [] [] [] [] []]; reflexivity. Qed.

Lemma toUpperCase_idem s : JS.toUpperCase (JS.toUpperCase s) = JS.toUpperCase s.
Proof. induction s as [|c s IH]; [done|]. simpl. by rewrite upper_char_idem, IH. Qed.

Lemma toUpperCase_app a b :
  JS.toUpperCase (a +:+ b) = JS.toUpperCase a +:+ JS.toUpperCase b.
Proof. induction a as [|c a IH]; [done|]. rewrite append_String. simpl. by rewrite IH. Qed.

Lemma string_append_assoc (a b c : string) : (a +:+ b) +:+ c = a +:+ (b +:+ c).
Proof. induction a as [|x a IH]; [done|]. by rewrite !append_String, IH. Qed.

Lemma isSubstring_part pre q post s :
  isSubstring (pre +:+ q +:+ post) s → isSubstring q s.
Proof.
  intros (a & b & ->). exists (a +:+ pre), (post +:+ b).
  by rewrite !string_append_assoc.
Qed.

Lemma includes_empty s : JS.includes s EmptyString = true.
Proof. apply includes_spec. by exists EmptyString, s. Qed.

Lemma filter_sublist_mono {A} (f g : A → bool) l :
  (∀ x, f x = true → g x = true) → List.filter f l `sublist_of` List.filter g l.
Proof.
  intros H. induction l as [|x l IH]; simpl; [done|].
  destruct (f x) eqn:Ef.
  - rewrite (H x Ef). by apply sublist_skip.
  - destruct (g x); [by apply sublist_cons | done].
Qed.

(** X7.  Extending the query on either side never adds an entry to the
    shown list; the empty query shows every symbol that is not selected;
    the case of the query does not matter; filtering again with the same
    query shows the same list. *)
Theorem search_narrows :
  (∀ pre query post p,
     shownAvailable (filterSymbols (pre +:+ query +:+ post) p)
       `sublist_of` shownAvailable (filterSymbols query p)) ∧
  (∀ p, shownAvailable (filterSymbols EmptyString p)
        = List.filter (λ symbol, negb (JS.arrayIncludes (selectedSymbols p) symbol))
            (availableSymbols p)) ∧
  (∀ query p,
     shownAvailable (filterSymbols (JS.toUpperCase query) p)
     = shownAvailable (filterSymbols query p)) ∧
  (∀ query p,
     shownAvailable (filterSymbols query (filterSymbols query p))
     = shownAvailable (filterSymbols query p)).
Proof.
  split; [|split; [|split]].
  - intros pre query post p. rewrite !filterSymbols_shown.
    apply filter_sublist_mono. intros symbol.
    rewrite !andb_true_iff, !includes_spec, !toUpperCase_app.
    intros [? H]. split; [done|]. by eapply isSubstring_part.
  - intros p. rewrite filterSymbols_shown. apply filter_ext. intros symbol.
    simpl. by rewrite includes_empty, andb_true_r.
  - intros query p. by rewrite !filterSymbols_shown, toUpperCase_idem.
  - intros query p. rewrite !filterSymbols_shown.
    by destruct (filterSymbols_fields query p) as [-> ->].
Qed.

Lemma deselect_decompose symbol p :
  ∃ q, text q = text p ∧
       selectedSymbols (onRemoveButtonClick symbol p) = selectedSymbols q ∧
       text (onRemoveButtonClick symbol p) = text (updateSelectedSymbolsList q) ∧
       selectedList (onRemoveButtonClick symbol p)
         = selectedList (updateSelectedSymbolsList q).
Proof.
  unfold onRemoveButtonClick. cbv zeta.
  set (q := match JS.indexOf _ _ with Some _ => _ | None => _ end).
  exists q. split; [subst q; by destruct (JS.indexOf _ _)|].
  assert (∀ r, text (filterSymbols (symbolSearch r) r) = text r ∧
               selectedList (filterSymbols (symbolSearch r) r) = selectedList r ∧
               selectedSymbols (filterSymbols (symbolSearch r) r) = selectedSymbols r) as Hf.
  { intros r. unfold filterSymbols, updateAvailableSymbolsList. cbv zeta.
    by destruct (_ =? _)%nat. }
  destruct (Hf (if negb (JS.arrayIncludes (availableSymbols (updateSelectedSymbolsList q)) symbol)
     then set_availableSymbols (availableSymbols (updateSelectedSymbolsList q) ++ [symbol])
            (updateSelectedSymbolsList q)
     else updateSelectedSymbolsList q)) as (-> & -> & ->).
  rewrite <- (proj1 (proj2 (update_selected_fields q))).
  by destruct (negb _).
Qed.

(** X8.  After a deselect the active-symbol count is the size of the
    selection, except when the selection became empty: then the selected
    list shows its placeholder and no text of the page is rewritten,
    so the count keeps its old value. *)
Theorem deselect_count symbol p :
  let p' := onRemoveButtonClick symbol p in
  match selectedSymbols p' with
  | [] => text p' = text p ∧ selectedList p' = [NoSymbolsSelected]
  | _ :: _ =>
      text p' = <["active-symbols-count" :=
                   JS.stringOfNat (length (selectedSymbols p'))]> (text p)
  end.
Proof.
  cbv zeta. destruct (deselect_decompose symbol p) as (q & Ht & -> & -> & ->).
  rewrite <- Ht. unfold updateSelectedSymbolsList.
  destruct (selectedSymbols q) as [|s l] eqn:E; simpl; [done|]. by rewrite E.
Qed.
End FilterMore.

(** ** More on the configuration form *)

Section ConfigMore.
Implicit Types (form : list control) (c : control) (key value : string).

Lemma fillControl_shape value c : controlShape (fillControl value c) = controlShape c.
Proof. unfold fillControl. by destruct (isCheckbox c). Qed.

Lemma fillEntry_shape form e : controlShape <$> fillEntry form e = controlShape <$> form.
Proof.
  destruct e as [key value]. unfold fillEntry. destruct (_ =? _)%nat; [|done].
  rewrite <- list_fmap_compose. apply list_fmap_ext. intros i c _. simpl.
  destruct (String.eqb (ctl_name c) key); [apply fillControl_shape | done].
Qed.

Lemma fold_fillEntry_shape data form :
  controlShape <$> fold_left fillEntry data form = controlShape <$> form.
Proof.
  revert form. induction data as [|e data IH]; intros form; [done|].
  simpl. by rewrite IH, fillEntry_shape.
Qed.

(** X9.  Whatever the response, loading the configuration keeps the
    controls of the form: their names, types and disabled flags, in
    order. *)
Theorem config_load_keeps_controls r p :
  controlShape <$> configForm (loadConfig_settled r p) = controlShape <$> configForm p.
Proof.
  destruct r as [|status [data|]]; try done.
  unfold loadConfig_settled. cbv zeta. unfold hideLoading. simpl.
  apply fold_fillEntry_shape.
Qed.

Lemma fillEntry_fixed form key value :
  (∀ c, c ∈ form → ctl_name c = key → fillControl value c = c) →
  fillEntry form (key, value) = form.
Proof.
  intros H. unfold fillEntry. destruct (_ =? _)%nat; [|done].
  rewrite <- (list_fmap_id form) at 2. apply list_fmap_ext. intros i c Hc. simpl.
  destruct (String.eqb (ctl_name c) key) eqn:E; [|done].
  apply String.eqb_eq in E. apply H; [|done]. by eapply list_elem_of_lookup_2.
Qed.

Lemma NoDup_fmap_eq {A B} (f : A → B) (l : list A) x y :
  NoDup (f <$> l) → x ∈ l → y ∈ l → f x = f y → x = y.
Proof.
  intros Hnd Hx Hy Hf.
  apply list_elem_of_lookup in Hx as [i Hi]. apply list_elem_of_lookup in Hy as [j Hj].
  assert (i = j) as ->.
  { eapply NoDup_lookup; [exact Hnd| |].
    - by rewrite list_lookup_fmap, Hi.
    - rewrite list_lookup_fmap, Hj. simpl. by rewrite Hf. }
  congruence.
Qed.

Lemma filter_none {A} (f : A → bool) l :
  (∀ x, x ∈ l → f x = false) → List.filter f l = [].
Proof.
  induction l as [|x l IH]; intros H; [done|]. simpl.
  rewrite (H x) by apply list_elem_of_here. apply IH. intros y Hy. apply H.
  by apply list_elem_of_further.
Qed.

Lemma other_names form name :
  name ∉ ctl_name <$> form →
  List.filter (λ d, String.eqb (ctl_name d) name) form = [].
Proof.
  intros H. apply filter_none. intros d Hd. apply String.eqb_neq. intros <-.
  apply H. apply list_elem_of_fmap. by exists d.
Qed.

Lemma count_unique form i c :
  NoDup (ctl_name <$> form) → form !! i = Some c →
  List.filter (λ d, String.eqb (ctl_name d) (ctl_name c)) form = [c].
Proof.
  revert i. induction form as [|d form IH]; intros i Hnd Hi; [done|].
  rewrite fmap_cons in Hnd. apply NoDup_cons in Hnd as [Hd Hnd].
  destruct i as [|i]; simpl in Hi.
  - injection Hi as ->. simpl. rewrite String.eqb_refl. f_equal.
    by apply other_names.
  - simpl. destruct (String.eqb (ctl_name d) (ctl_name c)) eqn:E.
    + apply String.eqb_eq in E. destruct Hd. rewrite E.
      apply list_elem_of_fmap. exists c. split; [done|]. by eapply list_elem_of_lookup_2.
    + by eapply IH.
Qed.

Lemma fmap_at_unique form i c (g : control → control) :
  NoDup (ctl_name <$> form) → form !! i = Some c →
  (λ d, if String.eqb (ctl_name d) (ctl_name c) then g d else d) <$> form
  = <[i := g c]> form.
Proof.
  revert i. induction form as [|d form IH]; intros i Hnd Hi; [done|].
  rewrite fmap_cons in Hnd. apply NoDup_cons in Hnd as [Hd Hnd].
  destruct i as [|i]; simpl in Hi.
  - injection Hi as ->. simpl. rewrite String.eqb_refl. f_equal.
    rewrite <- (list_fmap_id form) at 2. apply list_fmap_ext. intros j d Hj. simpl.
    destruct (String.eqb (ctl_name d) (ctl_name c)) eqn:E; [|done].
    apply String.eqb_eq in E. destruct Hd. rewrite <- E.
    apply list_elem_of_fmap. exists d. split; [done|]. by eapply list_elem_of_lookup_2.
  - simpl. destruct (String.eqb (ctl_name d) (ctl_name c)) eqn:E.
    + apply String.eqb_eq in E. destruct Hd. rewrite E.
      apply list_elem_of_fmap. exists c. split; [done|]. by eapply list_elem_of_lookup_2.
    + f_equal. by apply IH.
Qed.

Lemma fillEntry_at form i c value :
  NoDup (ctl_name <$> form) → form !! i = Some c →
  fillEntry form (ctl_name c, value) = <[i := fillControl value c]> form.
Proof.
  intros Hnd Hi. unfold fillEntry.
  rewrite (count_unique form i c) by done. simpl. by apply fmap_at_unique.
Qed.

(** X10.  One entry of the configuration response: a key that names no
    control is skipped; with unique names, the key of a control changes
    that control alone, which keeps its name, type and disabled flag; a
    checkbox keeps its value and is checked exactly when the text is
    [true] in any case; a text or password input given a text without
    line breaks takes it as its value and keeps its checked flag. *)
Theorem config_entry_effect :
  (∀ form key value,
     key ∉ ctl_name <$> form → fillEntry form (key, value) = form) ∧
  (∀ form i c value,
     NoDup (ctl_name <$> form) → form !! i = Some c →
     ∃ c', fillEntry form (ctl_name c, value) = <[i := c']> form ∧
           controlShape c' = controlShape c) ∧
  (∀ form i c value,
     NoDup (ctl_name <$> form) → form !! i = Some c → isCheckbox c = true →
     fillEntry form (ctl_name c, value)
     = <[i := set_ctl_checked (String.eqb (JS.toLowerCase value) "true") c]> form ∧
     (String.eqb (JS.toLowerCase value) "true" = true
      ↔ JS.toLowerCase value = "true")) ∧
  (∀ form i c value,
     NoDup (ctl_name <$> form) → form !! i = Some c →
     ctl_type c = TextInput ∨ ctl_type c = PasswordInput →
     singleLine value = true →
     fillEntry form (ctl_name c, value) = <[i := set_ctl_value value c]> form).
Proof.
  split; [|split; [|split]].
  - intros form key value H. unfold fillEntry. by rewrite other_names.
  - intros form i c value Hnd Hi. exists (fillControl value c).
    split; [by apply fillEntry_at|apply fillControl_shape].
  - intros form i c value Hnd Hi Hc. split; [|apply String.eqb_eq].
    rewrite (fillEntry_at form i c) by done. unfold fillControl. by rewrite Hc.
  - intros form i c value Hnd Hi Hc _.
    rewrite (fillEntry_at form i c) by done. unfold fillControl, isCheckbox.
    by destruct Hc as [-> | ->].
Qed.

Lemma config_entry_effect_witness :
  NoDup (ctl_name <$> exampleForm) ∧
  fillEntry exampleForm (ctl_name (checkbox "USE_ML_FILTER" true false), "false")
  = <[2 := set_ctl_checked (String.eqb (JS.toLowerCase "false") "true")
             (checkbox "USE_ML_FILTER" true false)]> exampleForm.
Proof.
  assert (NoDup (ctl_name <$> exampleForm)) as Hnd
    by (apply (bool_decide_unpack _); vm_compute; exact I).
  split; [exact Hnd|].
  apply (proj1 (proj1 (proj2 (proj2 config_entry_effect)) exampleForm 2%nat
                  (checkbox "USE_ML_FILTER" true false) "false" Hnd eq_refl eq_refl)).
Defined.

Lemma in_formDataSet name value fd e :
  e ∈ formDataSet name value fd → e = (name, value) ∨ e ∈ fd.
Proof.
  induction fd as [|[k v] rest IH]; simpl.
  - intros ->%list_elem_of_singleton. by left.
  - destruct (String.eqb k name).
    + intros [->|H]%elem_of_cons; [by left|]. right.
      apply list_elem_of_further. apply list_elem_of_In, filter_In in H as [H _].
      by apply list_elem_of_In.
    + intros [->|H]%elem_of_cons; [right; apply list_elem_of_here|].
      destruct (IH H) as [->|H']; [by left|]. right. by apply list_elem_of_further.
Qed.

Lemma in_forced checkboxes fd e :
  e ∈ fold_left forceUnchecked checkboxes fd →
  e ∈ fd ∨ ∃ cb, cb ∈ checkboxes ∧ ctl_checked cb = false ∧ e = (ctl_name cb, "False").
Proof.
  revert fd. induction checkboxes as [|cb rest IH]; intros fd; simpl; [by left|].
  intros H. destruct (IH _ H) as [H'|(cb' & Hin & Hc & ->)].
  - unfold forceUnchecked in H'. destruct (ctl_checked cb) eqn:E; simpl in H'; [by left|].
    destruct (in_formDataSet _ _ _ _ H') as [->|?]; [|by left].
    right. exists cb. split; [apply list_elem_of_here | done].
  - right. exists cb'. split; [by apply list_elem_of_further | done].
Qed.

Lemma in_newFormData form k v :
  (k, v) ∈ newFormData form →
  ∃ c, c ∈ form ∧ submitted c = true ∧ k = ctl_name c ∧ v = ctl_value c.
Proof.
  unfold newFormData. intros (c & Hc & H)%list_elem_of_omap. exists c. split; [done|].
  unfold submitted. destruct (_ || _); [done|]. by injection H as -> ->.
Qed.

Lemma set_ctl_value_same c : set_ctl_value (ctl_value c) c = c.
Proof. by destruct c. Qed.

Lemma set_ctl_checked_same c : set_ctl_checked (ctl_checked c) c = c.
Proof. by destruct c. Qed.

(** X11.  When the names of the form are unique and every checked checkbox
    has a value that reads [true], loading back exactly what a save would
    send leaves the form as it is. *)
Theorem config_save_load_round_trip status p :
  NoDup (ctl_name <$> configForm p) →
  (∀ c, c ∈ configForm p → isCheckbox c = true → ctl_checked c = true →
        JS.toLowerCase (ctl_value c) = "true") →
  configForm (loadConfig_settled
                (Response status (Some (configFormData (configForm p)))) p)
  = configForm p.
Proof.
  intros Hnd Hval. unfold loadConfig_settled. cbv zeta. unfold hideLoading. simpl.
  set (form := configForm p) in *.
  assert (∀ entries, (∀ e, e ∈ entries → e ∈ configFormData form) →
                     fold_left fillEntry entries form = form) as Hfold.
  { induction entries as [|[k v] entries IH]; intros Hsub; [done|]. cbn [fold_left].
    rewrite fillEntry_fixed.
    - apply IH. intros e He. apply Hsub. by apply list_elem_of_further.
    - intros c' Hc' Hname.
      destruct (in_forced _ _ _ (Hsub (k, v) (list_elem_of_here _ _)))
        as [Hnew|(cb & Hcb & Hunchecked & [= -> ->])].
      + apply in_newFormData in Hnew as (c & Hc & Hsubm & -> & ->).
        assert (c' = c) as -> by by eapply (NoDup_fmap_eq ctl_name).
        unfold fillControl. destruct (isCheckbox c) eqn:Ecb.
        * assert (ctl_checked c = true) as Hchecked.
          { unfold submitted in Hsubm. rewrite Ecb in Hsubm.
            destruct (ctl_checked c); [done|]. simpl in Hsubm.
            by rewrite !orb_true_r in Hsubm. }
          rewrite (Hval c) by done. simpl. rewrite <- Hchecked at 1.
          apply set_ctl_checked_same.
        * apply set_ctl_value_same.
      + apply list_elem_of_In, filter_In in Hcb as [Hcb Hiscb].
        apply list_elem_of_In in Hcb.
        assert (c' = cb) as -> by by eapply (NoDup_fmap_eq ctl_name).
        unfold fillControl. rewrite Hiscb. simpl. rewrite <- Hunchecked at 1.
        apply set_ctl_checked_same. }
  by apply Hfold.
Qed.

Lemma config_save_load_round_trip_witness :
  configForm (loadConfig_settled
                (Response 200 (Some (configFormData (configForm (servedPage exampleForm)))))
                (servedPage exampleForm))
  = configForm (servedPage exampleForm).
Proof.
  apply (config_save_load_round_trip 200%nat (servedPage exampleForm)).
  - apply (bool_decide_unpack _). vm_compute. exact I.
  - intros c Hc Hbox Hchecked. apply list_elem_of_In in Hc. simpl in Hc.
    destruct Hc as [<- | [<- | [<- | [<- | []]]]];
      first [reflexivity | discriminate Hbox | discriminate Hchecked].
Defined.

Lemma forced_untouched name checkboxes fd :
  (∀ cb, cb ∈ checkboxes → ctl_checked cb = false → ctl_name cb ≠ name) →
  formDataGetAll name (fold_left forceUnchecked checkboxes fd) = formDataGetAll name fd.
Proof.
  revert fd. induction checkboxes as [|cb rest IH]; intros fd H; [done|].
  simpl. rewrite IH by (intros ? ?; apply H; by apply list_elem_of_further).
  unfold forceUnchecked. destruct (ctl_checked cb) eqn:E; simpl; [done|].
  apply getAll_set_other. apply not_eq_sym, H; [apply list_elem_of_here | done].
Qed.

Lemma getAll_newFormData_absent form name :
  name ∉ ctl_name <$> form → formDataGetAll name (newFormData form) = [].
Proof.
  intros H. unfold formDataGetAll. rewrite filter_none; [done|].
  intros [k v] (c & Hc & _ & -> & _)%in_newFormData. simpl.
  apply String.eqb_neq. intros Heq. apply H. apply list_elem_of_fmap. by exists c.
Qed.

Lemma getAll_newFormData form c :
  NoDup (ctl_name <$> form) → c ∈ form →
  formDataGetAll (ctl_name c) (newFormData form)
  = if submitted c then [ctl_value c] else [].
Proof.
  induction form as [|d form IH]; intros Hnd Hc; [by apply elem_of_nil in Hc|].
  rewrite fmap_cons in Hnd. apply NoDup_cons in Hnd as [Hd Hnd].
  apply elem_of_cons in Hc as [->|Hc].
  - unfold newFormData. cbn [omap list_omap]. fold (newFormData form).
    unfold submitted. destruct (_ || _); simpl.
    + by apply getAll_newFormData_absent.
    + unfold formDataGetAll. simpl. rewrite String.eqb_refl. simpl. f_equal.
      by apply getAll_newFormData_absent.
  - assert (ctl_name d ≠ ctl_name c) as Hne.
    { intros E. apply Hd. rewrite E. apply list_elem_of_fmap. by exists c. }
    unfold newFormData. cbn [omap list_omap]. fold (newFormData form).
    destruct (_ || _); simpl; [by apply IH|].
    unfold formDataGetAll. simpl. apply String.eqb_neq in Hne. rewrite Hne.
    by apply IH.
Qed.

(** X12.  With unique names, a control that is neither a select nor an
    unchecked checkbox is sent with exactly its value when it is enabled
    and named, and is not sent at all when it is disabled or has no name (a
    disabled checked flag included). *)
Theorem config_entries_sent form c :
  NoDup (ctl_name <$> form) → c ∈ form →
  ctl_type c ≠ SelectBox →
  isCheckbox c = false ∨ ctl_checked c = true →
  formDataGetAll (ctl_name c) (configFormData form)
  = if submitted c then [ctl_value c] else [].
Proof.
  intros Hnd Hc _ Hkind. unfold configFormData.
  rewrite forced_untouched; [by apply getAll_newFormData|].
  intros cb Hcb Hunchecked Hname.
  apply list_elem_of_In, filter_In in Hcb as [Hcb Hiscb]. apply list_elem_of_In in Hcb.
  assert (cb = c) as -> by by eapply (NoDup_fmap_eq ctl_name).
  destruct Hkind; congruence.
Qed.

Lemma config_entries_sent_witness :
  formDataGetAll (ctl_name (checkbox "USE_ML_FILTER" true false))
    (configFormData exampleForm)
  = if submitted (checkbox "USE_ML_FILTER" true false)
    then [ctl_value (checkbox "USE_ML_FILTER" true false)] else [].
Proof.
  apply (config_entries_sent exampleForm (checkbox "USE_ML_FILTER" true false)).
  - apply (bool_decide_unpack _). vm_compute. exact I.
  - vm_compute. do 2 apply list_elem_of_further. apply list_elem_of_here.
  - intros H. discriminate H.
  - right. reflexivity.
Defined.
End ConfigMore.

(** ** Failure paths of the pipeline *)


Section PipelineMore.
Implicit Types (p : Page) (symbol : string) (data : PerformanceBody).

Lemma loading_body symbol data p :
  loading (loadPerformanceData_then symbol data p).1
  = loading p ∖ {["performance-stats"]}.
Proof.
  unfold loadPerformanceData_then.
  change ((run (hideLoading "performance-stats") ;;;
           if JS.truthyString (error data)
           then run (showPerformanceError symbol (default EmptyString (error data)))
           else (updatePerformanceStats (stats data) ;;;
                 updateCurrentPosition (current_position data) ;;;
                 updatePriceChart (price_data data) ;;;
                 updateTDIChart (tdi_data data) ;;;
                 run (updateTradeHistory (trades data)))) p)
    with ((if JS.truthyString (error data)
           then run (showPerformanceError symbol (default EmptyString (error data)))
           else (updatePerformanceStats (stats data) ;;;
                 updateCurrentPosition (current_position data) ;;;
                 updatePriceChart (price_data data) ;;;
                 updateTDIChart (tdi_data data) ;;;
                 run (updateTradeHistory (trades data))))
            (hideLoading "performance-stats" p)).
  set (q := hideLoading "performance-stats" p).
  change (loading p ∖ {["performance-stats"]}) with (loading q).
  generalize q. clear q.
  change (keeps loading
    (if JS.truthyString (error data)
     then run (showPerformanceError symbol (default EmptyString (error data)))
     else (updatePerformanceStats (stats data) ;;;
           updateCurrentPosition (current_position data) ;;;
           updatePriceChart (price_data data) ;;;
           updateTDIChart (tdi_data data) ;;;
           run (updateTradeHistory (trades data))))).
  destruct (JS.truthyString _).
  - apply keeps_run. intros q. by apply f_showPerformanceError.
  - repeat apply keeps_andThen.
    + destruct (stats data) as [s|]; [|by intros ?]. by apply keeps_run.
    + destruct (current_position data) as [pos|]; [|by intros ?]. by apply keeps_run.
    + intros q. unfold updatePriceChart. by destruct (price_data data).
    + intros q. unfold updateTDIChart. by destruct (tdi_data data).
    + apply keeps_run. intros q. by apply f_updateTradeHistory.
Qed.

Lemma loading_settled symbol r p :
  loading (loadPerformanceData_settled symbol r p) = loading p ∖ {["performance-stats"]}.
Proof.
  unfold loadPerformanceData_settled. destruct r as [|status [data|]]; try done.
  - destruct (negb (ok status)); [done|]. unfold thenCatch.
    pose proof (loading_body symbol data p) as H.
    destruct (loadPerformanceData_then symbol data p) as [q [|]]; simpl in *; [done|].
    rewrite H. apply set_eq. intros y. rewrite !elem_of_difference. tauto.
  - by destruct (negb (ok status)).
Qed.

Lemma not_in_removed (X : gset string) x : x ∉ X ∖ {[x]}.
Proof. rewrite elem_of_difference, elem_of_singleton. tauto. Qed.

Lemma not_in_removed_added (X : gset string) x y : x ≠ y → x ∉ X ∖ {[x]} ∪ {[y]}.
Proof.
  intros H. rewrite elem_of_union, elem_of_difference, !elem_of_singleton. tauto.
Qed.

(** X13.  No outcome of a call (transport failure, unreadable body, refusal
    or success) leaves the loading mark of that call on its region. *)
Theorem loading_mark_removed :
  (∀ r p, "config-form" ∉ loading (loadConfig_settled r p)) ∧
  (∀ r p, "config-form" ∉ loading (saveConfig_settled r p)) ∧
  (∀ r p, "available-symbols" ∉ loading (loadAvailableSymbols_settled r p)) ∧
  (∀ r p, "selected-symbols" ∉ loading (saveSelectedSymbols_settled r p)) ∧
  (∀ symbol r p, "performance-stats" ∉ loading (loadPerformanceData_settled symbol r p)) ∧
  (∀ symbol r p, "run-strategy" ∉ loading (runStrategy_settled symbol r p)).
Proof.
  repeat split.
  - intros [|? [?|]] p; apply not_in_removed.
  - intros [|? [d|]] p; simpl; try apply not_in_removed.
    all: destruct (success d); apply not_in_removed.
  - intros [|? [d|]] p; simpl; try apply not_in_removed.
    all: unfold updateAvailableSymbolsList; destruct (_ =? _)%nat; apply not_in_removed.
  - intros [|? [d|]] p; simpl; try apply not_in_removed.
    all: destruct (success d); apply not_in_removed.
  - intros symbol r p. rewrite loading_settled. apply not_in_removed.
  - intros symbol [|? [d|]] p; simpl; try apply not_in_removed.
    all: destruct (success d); simpl; [by apply not_in_removed_added | apply not_in_removed].
Qed.







(** X16.  A payload without error text that lacks statistics, position,
    price series or oscillator series ends in the unexpected-error panel,
    with what was rendered before the missing part left in place: the
    statistics when they were present, and a price chart that is new,
    destroyed or untouched according to where rendering stopped. *)
Theorem incomplete_payload_view symbol status data p :
  ok status = true → JS.truthyString (error data) = false → ¬ completePayload data →
  let p' := loadPerformanceData_settled symbol (Response status (Some data)) p in
  currentPosition p' = unexpectedPanel symbol ∧
  alerts p' = alerts p ++ [("Failed to load performance data. Please try again.", "danger")] ∧
  tradeHistory p' = tradeHistory p ∧
  text p' = match stats data with
            | Some s => text (writeStats s p)
            | None => text p
            end ∧
  priceChart p' = match stats data, current_position data with
                  | Some _, Some _ =>
                      match price_data data with
                      | Some prices => Some (priceChartOf prices)
                      | None => destroy <$> priceChart p
                      end
                  | _, _ => priceChart p
                  end.
Proof.
  intros Hok Herr Hinc. cbv zeta.
  unfold loadPerformanceData_settled, thenCatch, loadPerformanceData_then.
  rewrite Hok, Herr. simpl.
  destruct (stats data) as [s|] eqn:Es; [|done].
  destruct (current_position data) as [pos|] eqn:Epos; [|done].
  destruct (price_data data) as [prices|] eqn:Epr; [|done].
  destruct (tdi_data data) as [tdi|] eqn:Etdi; [|done].
  destruct Hinc. unfold completePayload. rewrite Es, Epos, Epr, Etdi. by repeat split.
Qed.

Lemma incomplete_payload_view_witness :
  let p' := loadPerformanceData_settled "BTCUSDT"
              (Response 200 (Some statsOnlyPayload)) readyPage in
  currentPosition p' = unexpectedPanel "BTCUSDT" ∧
  alerts p' = alerts readyPage
              ++ [("Failed to load performance data. Please try again.", "danger")] ∧
  tradeHistory p' = tradeHistory readyPage ∧
  text p' = match stats statsOnlyPayload with
            | Some s => text (writeStats s readyPage)
            | None => text readyPage
            end ∧
  priceChart p' = match stats statsOnlyPayload, current_position statsOnlyPayload with
                  | Some _, Some _ =>
                      match price_data statsOnlyPayload with
                      | Some prices => Some (priceChartOf prices)
                      | None => destroy <$> priceChart readyPage
                      end
                  | _, _ => priceChart readyPage
                  end.
Proof.
  apply (incomplete_payload_view "BTCUSDT" 200%nat statsOnlyPayload readyPage).
  - reflexivity.
  - reflexivity.
  - intros (_ & _ & [pos Hpos] & _). discriminate Hpos.
Defined.
End PipelineMore.

(** ** Requests *)

Section Requests.
Implicit Types (p : Page) (symbol : string).










(** X18.  When a symbol is selected while a save of the selection is in
    flight, a successful answer rebuilds the chooser from the selection
    as it is then: the chooser lists the new symbol although the request
    sent the selection without it. *)
Theorem selection_changed_during_save i symbol status ack p :
  availableList p !! i = Some (AvailableItem symbol) →
  (symbol ∉ selectedSymbols p) → success ack = true →
  let p' := steps [ClickSaveSymbols; ClickAvailable i;
                   Settle (length (inflight p)) (AckReply (Response status (Some ack)))] p in
  inflight (step ClickSaveSymbols p)
    = inflight p ++ [PostTradingSymbols (selectedSymbols p)] ∧
  selectedSymbols p' = selectedSymbols p ++ [symbol] ∧
  performanceSymbol p' = selectedSymbols p ++ [symbol] ∧
  inflight p' = inflight p.
Proof.
  intros Hi Hout Hack. cbv zeta. split; [done|].
  unfold steps. cbn [fold_left].
  set (p1 := step ClickSaveSymbols p).
  assert (availableList p1 !! i = Some (AvailableItem symbol)) as Hi1 by done.
  assert (symbol ∉ selectedSymbols p1) as Hout1 by done.
  destruct (select_effect i symbol p1 Hi1 Hout1) as (Hf & Hs & _).
  set (p2 := step (ClickAvailable i) p1) in *.
  assert (inflight p2 = inflight p ++ [PostTradingSymbols (selectedSymbols p)]) as Hin.
  { destruct Hf as (_ & _ & _ & _ & _ & _ & _ & _ & _ & _ & _ & ->). done. }
  cbn [step]. unfold settle. rewrite Hin, lookup_last, delete_last.
  unfold saveSelectedSymbols_settled. rewrite Hack. cbv zeta.
  unfold updateDashboardStats, showAlert, hideLoading. simpl. by rewrite Hs.
Qed.

Lemma selection_changed_during_save_witness :
  let p' := steps [ClickSaveSymbols; ClickAvailable 0;
                   Settle (length (inflight readyPage))
                     (AckReply (Response 200 (Some exampleAck)))] readyPage in
  inflight (step ClickSaveSymbols readyPage)
    = inflight readyPage ++ [PostTradingSymbols (selectedSymbols readyPage)] ∧
  selectedSymbols p' = selectedSymbols readyPage ++ ["BTCUSDT"] ∧
  performanceSymbol p' = selectedSymbols readyPage ++ ["BTCUSDT"] ∧
  inflight p' = inflight readyPage.
Proof.
  apply (selection_changed_during_save 0 "BTCUSDT" 200%nat exampleAck readyPage).
  - reflexivity.
  - apply (bool_decide_unpack _). vm_compute. exact I.
  - reflexivity.
Defined.
End Requests.

(** ** More on the renderers *)

Section RenderMore.

(** X19.  A position or a trade whose direction is any non-empty text other
    than [long] is rendered exactly like a short one, ratio included; a
    position with a missing or empty direction is shown as no position. *)
Theorem other_directions_render_as_short :
  (∀ pos dir,
     position pos = Some dir → dir ≠ EmptyString → dir ≠ "long" →
     positionPanel pos = positionPanel (withDirection (Some "short") pos) ∧
     calculateRiskReward pos = calculateRiskReward (withDirection (Some "short") pos)) ∧
  (∀ t, direction t ≠ "long" → tradeRow t = tradeRow (tradeWithDirection "short" t)) ∧
  (∀ pos, position pos = None ∨ position pos = Some EmptyString →
          positionPanel pos = PanelNoPosition (pos_symbol pos)).
Proof.
  split; [|split].
  - intros pos dir Hd Hne Hlong.
    assert (calculateRiskReward pos = calculateRiskReward (withDirection (Some "short") pos)) as Hrr.
    { unfold calculateRiskReward. rewrite Hd. cbn -[JS.double JS.sub JS.div JS.mul JS.toFixed].
      apply String.eqb_neq in Hne, Hlong. by rewrite Hne, Hlong. }
    split; [|done]. unfold positionPanel. rewrite <- Hrr, Hd.
    cbn -[JS.double JS.sub JS.div JS.mul JS.toFixed].
    apply String.eqb_neq in Hne, Hlong. by rewrite Hne, Hlong.
  - intros t Hlong. unfold tradeRow. simpl. apply String.eqb_neq in Hlong. by rewrite Hlong.
  - intros pos [H|H]; unfold positionPanel; by rewrite H.
Qed.

Lemma other_directions_render_as_short_witness :
  positionPanel (positionOf "SHORT" (Some 100%Q) (Some 105%Q) (Some [90%Q]))
  = positionPanel (withDirection (Some "short")
                     (positionOf "SHORT" (Some 100%Q) (Some 105%Q) (Some [90%Q]))) ∧
  calculateRiskReward (positionOf "SHORT" (Some 100%Q) (Some 105%Q) (Some [90%Q]))
  = calculateRiskReward (withDirection (Some "short")
                           (positionOf "SHORT" (Some 100%Q) (Some 105%Q) (Some [90%Q]))).
Proof.
  apply (proj1 other_directions_render_as_short
           (positionOf "SHORT" (Some 100%Q) (Some 105%Q) (Some [90%Q])) "SHORT").
  - reflexivity.
  - intros H. discriminate H.
  - intros H. discriminate H.
Defined.




End RenderMore.

(** ** Navigation *)

Section NavMore.
Import Nav.

Lemma onLinkClick_links k nav this :
  navLinks nav !! k = Some this →
  navLinks (onLinkClick k nav)
  = <[k := {| href := href this; active := true |}]>
      ((fun l => {| href := href l; active := false |}) <$> navLinks nav).
Proof. intros H. unfold onLinkClick. by rewrite H. Qed.

Lemma onLinkClick_sections k nav this :
  navLinks nav !! k = Some this →
  sections (onLinkClick k nav)
  = (fun s => if String.eqb (id s) (targetOf (href this))
              then setDisplay Block s else setDisplay Hidden s) <$> sections nav.
Proof. intros H. unfold onLinkClick. by rewrite H. Qed.

(** X22.  A click on a navigation link makes that link the only active
    one, keeps every link target and section, shows exactly the sections
    whose id is the link target and hides all others: every section when
    no section has that id, at most one when the ids are unique. *)
Theorem navigation_click k nav this :
  navLinks nav !! k = Some this →
  let nav' := onLinkClick k nav in
  (∀ j l, navLinks nav' !! j = Some l → (active l = true ↔ j = k)) ∧
  href <$> navLinks nav' = href <$> navLinks nav ∧
  id <$> sections nav' = id <$> sections nav ∧
  (∀ s, s ∈ sections nav' →
        (style_display s = Block ↔ id s = targetOf (href this)) ∧
        (style_display s = Hidden ↔ id s ≠ targetOf (href this))) ∧
  (targetOf (href this) ∉ id <$> sections nav →
   ∀ s, s ∈ sections nav' → style_display s = Hidden) ∧
  (NoDup (id <$> sections nav) →
   ∀ i j si sj, sections nav' !! i = Some si → sections nav' !! j = Some sj →
                style_display si = Block → style_display sj = Block → i = j).
Proof.
  intros Hk. cbv zeta.
  rewrite (onLinkClick_links k nav this Hk), (onLinkClick_sections k nav this Hk).
  assert (∀ s, s ∈ (fun s => if String.eqb (id s) (targetOf (href this))
              then setDisplay Block s else setDisplay Hidden s) <$> sections nav →
        (style_display s = Block ↔ id s = targetOf (href this)) ∧
        (style_display s = Hidden ↔ id s ≠ targetOf (href this))) as Hdisp.
  { intros s (s0 & -> & _)%list_elem_of_fmap.
    destruct (String.eqb (id s0) (targetOf (href this))) eqn:E; simpl.
    - apply String.eqb_eq in E. split; split; try done. all: try (intros H; by destruct H).
    - apply String.eqb_neq in E. split; split; try done. }
  assert (id <$> ((fun s => if String.eqb (id s) (targetOf (href this))
              then setDisplay Block s else setDisplay Hidden s) <$> sections nav)
          = id <$> sections nav) as Hids.
  { rewrite <- list_fmap_compose. apply list_fmap_ext. intros i s _. simpl.
    by destruct (String.eqb _ _). }
  split; [|split; [|split; [done|split; [done|split]]]].
  - intros j l. destruct (decide (j = k)) as [->|Hne].
    + rewrite list_lookup_insert_eq.
      * intros [= <-]. simpl. by split.
      * rewrite length_fmap. by eapply lookup_lt_Some.
    + rewrite list_lookup_insert_ne by done. rewrite list_lookup_fmap.
      destruct (navLinks nav !! j); simpl; [|done]. intros [= <-]. simpl. by split.
  - apply list_eq. intros j. rewrite !list_lookup_fmap.
    destruct (decide (j = k)) as [->|Hne].
    + rewrite list_lookup_insert_eq by (rewrite length_fmap; by eapply lookup_lt_Some).
      by rewrite Hk.
    + rewrite list_lookup_insert_ne by done. rewrite list_lookup_fmap.
      by destruct (navLinks nav !! j).
  - intros Hnone s Hs. apply Hdisp; [done|]. intros Hid. apply Hnone. rewrite <- Hid.
    rewrite <- Hids. apply list_elem_of_fmap. by exists s.
  - intros Hnd i j si sj Hi Hj Hbi Hbj.
    eapply NoDup_lookup; [rewrite <- Hids in Hnd; exact Hnd | |].
    + by rewrite list_lookup_fmap, Hi.
    + rewrite list_lookup_fmap, Hj. simpl.
      apply list_elem_of_lookup_2 in Hi, Hj.
      apply Hdisp in Hi, Hj. f_equal.
      by rewrite (proj1 (proj1 Hi) Hbi), (proj1 (proj1 Hj) Hbj).
Qed.

Lemma navigation_click_witness :
  let nav' := onLinkClick 1 servedNavigation in
  (∀ j l, navLinks nav' !! j = Some l → (active l = true ↔ j = 1%nat)) ∧
  href <$> navLinks nav' = href <$> navLinks servedNavigation ∧
  id <$> sections nav' = id <$> sections servedNavigation ∧
  (∀ s, s ∈ sections nav' →
        (style_display s = Block ↔ id s = targetOf (href (Build_link "#configuration" false))) ∧
        (style_display s = Hidden ↔ id s ≠ targetOf (href (Build_link "#configuration" false)))) ∧
  (targetOf (href (Build_link "#configuration" false)) ∉ id <$> sections servedNavigation →
   ∀ s, s ∈ sections nav' → style_display s = Hidden) ∧
  (NoDup (id <$> sections servedNavigation) →
   ∀ i j si sj, sections nav' !! i = Some si → sections nav' !! j = Some sj →
                style_display si = Block → style_display sj = Block → i = j).
Proof.
  apply (navigation_click 1 servedNavigation (Build_link "#configuration" false)).
  reflexivity.
Defined.
End NavMore.

Section NavStart.
Import Nav.

(** X23.  [initNavigation] keeps the links, hides every section but the
    dashboard, leaves the dashboard as it is, and changes nothing when it
    runs again. *)
Theorem navigation_start nav :
  navLinks (initNavigation nav) = navLinks nav ∧
  id <$> sections (initNavigation nav) = id <$> sections nav ∧
  (∀ i s, sections nav !! i = Some s →
          sections (initNavigation nav) !! i
          = Some (if String.eqb (id s) "dashboard" then s else setDisplay Hidden s)) ∧
  (∀ s, s ∈ sections (initNavigation nav) → id s ≠ "dashboard" →
        style_display s = Hidden) ∧
  initNavigation (initNavigation nav) = initNavigation nav.
Proof.
  split; [done|]. split; [|split; [|split]].
  - unfold initNavigation. simpl. rewrite <- list_fmap_compose.
    apply list_fmap_ext. intros i s _. simpl. by destruct (negb _).
  - intros i s Hi. unfold initNavigation. simpl. rewrite list_lookup_fmap, Hi. simpl.
    by destruct (String.eqb (id s) "dashboard").
  - intros s (s0 & -> & _)%list_elem_of_fmap.
    destruct (String.eqb (id s0) "dashboard") eqn:E; simpl; [|done].
    apply String.eqb_eq in E. by intros H.
  - unfold initNavigation. simpl. f_equal. rewrite <- list_fmap_compose.
    apply list_fmap_ext. intros i s _. simpl.
    destruct (String.eqb (id s) "dashboard") eqn:E; simpl; by rewrite ?E.
Qed.

Lemma navigation_start_witness :
  sections (initNavigation servedNavigation) !! 1%nat
  = Some (if String.eqb (id (Build_section "configuration" Unset)) "dashboard"
          then Build_section "configuration" Unset
          else setDisplay Hidden (Build_section "configuration" Unset)).
Proof.
  apply (proj1 (proj2 (proj2 (navigation_start servedNavigation)))
           1%nat (Build_section "configuration" Unset)).
  reflexivity.
Defined.
End NavStart.

(** ** Loading indicators *)

Section OverlayMore.
Import Overlay.

Lemma apply_tidy o dom :
  map_Forall (λ _ r, tidy r) dom → map_Forall (λ _ r, tidy r) (apply o dom).
Proof.
  intros H. destruct o as [i|i|i]; simpl.
  - unfold showLoading. destruct (dom !! i) as [r|] eqn:E; [|done].
    apply map_Forall_insert_2; [|done]. unfold tidy. simpl.
    destruct (H i r E) as [Hle _]. destruct (indicators r =? 0)%nat; split; try done; lia.
  - unfold hideLoading. destruct (dom !! i) as [r|] eqn:E; [|done].
    apply map_Forall_insert_2; [|done]. unfold tidy. simpl.
    destruct (H i r E) as [Hle _]. split; lia.
  - unfold clearContent. destruct (dom !! i) as [r|] eqn:E; [|done].
    apply map_Forall_insert_2; [|done]. unfold tidy. simpl. split; [lia | done].
Qed.

(** X24.  Regions that hold at most one loading indicator, and none without
    the loading class, stay so under every sequence of show, hide and
    clear; showing twice is showing once, hiding twice is hiding once,
    show then hide restores an unmarked region, an id that names no
    region is ignored, and other regions are never touched. *)
Theorem loading_indicators_stay_tidy :
  (∀ ops dom,
     map_Forall (λ _ r, tidy r) dom →
     map_Forall (λ _ r, tidy r) (fold_left (λ d o, apply o d) ops dom)) ∧
  (∀ i dom, showLoading i (showLoading i dom) = showLoading i dom) ∧
  (∀ i dom, map_Forall (λ _ r, tidy r) dom →
            hideLoading i (hideLoading i dom) = hideLoading i dom) ∧
  (∀ i dom r, dom !! i = Some r → tidy r → loadingContainer r = false →
              hideLoading i (showLoading i dom) = dom) ∧
  (∀ i dom, dom !! i = None →
            showLoading i dom = dom ∧ hideLoading i dom = dom) ∧
  (∀ o i j dom, o = Show i ∨ o = Hide i ∨ o = Clear i → i ≠ j →
                apply o dom !! j = dom !! j).
Proof.
  split; [|split; [|split; [|split; [|split]]]].
  - intros ops. induction ops as [|o ops IH]; intros dom H; [done|].
    simpl. apply IH. by apply apply_tidy.
  - intros i dom. unfold showLoading at 2. destruct (dom !! i) as [r|] eqn:E.
    + unfold showLoading. rewrite lookup_insert_eq, insert_insert_eq, E. simpl.
      by destruct (indicators r) as [|[|n]].
    + unfold showLoading. by rewrite E.
  - intros i dom H. unfold hideLoading at 2. destruct (dom !! i) as [r|] eqn:E.
    + unfold hideLoading. rewrite lookup_insert_eq, insert_insert_eq, E. simpl.
      destruct (H i r E) as [Hle _]. by destruct (indicators r) as [|[|n]]; [| |lia].
    + unfold hideLoading. by rewrite E.
  - intros i dom r E [Hle Hone] Hc. unfold showLoading. rewrite E.
    unfold hideLoading. rewrite lookup_insert_eq, insert_insert_eq. simpl.
    apply insert_id. rewrite E. f_equal. destruct r as [c n]. simpl in *. subst c.
    destruct n as [|[|n]]; [done| |lia]. by specialize (Hone eq_refl).
  - intros i dom E. unfold showLoading, hideLoading. by rewrite E.
  - intros o i j dom Ho Hne.
    destruct Ho as [-> | [-> | ->]]; simpl;
      [unfold showLoading | unfold hideLoading | unfold clearContent];
      destruct (dom !! i); by rewrite ?lookup_insert_ne.
Qed.

Lemma loading_indicators_stay_tidy_witness :
  hideLoading "config-form"
    (showLoading "config-form" {["config-form" := Build_Region false 0]})
  = {["config-form" := Build_Region false 0]}.
Proof.
  apply (proj1 (proj2 (proj2 (proj2 loading_indicators_stay_tidy)))
           "config-form" {["config-form" := Build_Region false 0]}
           (Build_Region false 0)).
  - reflexivity.
  - split; [simpl; lia | intros H; discriminate H].
  - reflexivity.
Defined.
End OverlayMore.

(** ** Operations composed *)

Section Composition.
Implicit Types (p : Page) (symbol : string).

Lemma perfView_updateSelected p : perfView (updateSelectedSymbolsList p) = perfView p.
Proof.
  unfold updateSelectedSymbolsList. destruct (_ =? _)%nat; [done|].
  unfold perfView. simpl. by rewrite !lookup_insert_ne.
Qed.

Lemma perfView_updateAvailable symbols p :
  perfView (updateAvailableSymbolsList symbols p) = perfView p.
Proof. unfold updateAvailableSymbolsList. by destruct (_ =? _)%nat. Qed.

Lemma perfView_step o p : perfView (step (eventOf o) p) = perfView p.
Proof.
  destruct o as [i|i|query]; simpl.
  - destruct (availableList p !! i) as [[|symbol]|]; try done.
    unfold onAvailableItemClick. destruct (negb _); [|done]. cbv zeta.
    by rewrite perfView_updateSelected.
  - destruct (selectedList p !! i) as [[|symbol]|]; try done.
    unfold onRemoveButtonClick, filterSymbols. cbv zeta.
    rewrite perfView_updateAvailable.
    set (q := match JS.indexOf _ _ with Some _ => _ | None => _ end).
    assert (perfView q = perfView p) as <- by (subst q; by destruct (JS.indexOf _ _)).
    rewrite <- (perfView_updateSelected q). by destruct (negb _).
  - unfold filterSymbols. cbv zeta. by rewrite perfView_updateAvailable.
Qed.

(** X25.  No sequence of select, deselect and filter operations changes what
    the performance section shows. *)
Theorem symbol_ops_keep_performance_view ops p :
  perfView (steps (eventOf <$> ops) p) = perfView p.
Proof.
  revert p. induction ops as [|o ops IH]; intros p; [done|].
  simpl. by rewrite IH, perfView_step.
Qed.

Lemma start_fields form :
  inflight (onDOMContentLoaded (servedPage form)) = [GetConfig; GetTradingSymbols] ∧
  selectedSymbols (onDOMContentLoaded (servedPage form)) = [] ∧
  availableList (onDOMContentLoaded (servedPage form)) = [] ∧
  alerts (onDOMContentLoaded (servedPage form)) = [].
Proof. repeat split; reflexivity. Qed.

Lemma settle_selection (r : FetchResult (list string)) p :
  inflight p = [GetConfig; GetTradingSymbols] →
  step (Settle 1 (SymbolsReply r)) p
  = loadTradingSymbols_settled r (set_inflight [GetConfig] p).
Proof. intros H. cbn [step]. unfold settle. by rewrite H. Qed.

Lemma settle_universe (r : FetchResult (list string)) p :
  inflight p = [GetConfig; GetSymbols] →
  step (Settle 1 (SymbolsReply r)) p
  = loadAvailableSymbols_settled r (set_inflight [GetConfig] p).
Proof. intros H. cbn [step]. unfold settle. by rewrite H. Qed.

Lemma selection_settled_fields status selected p :
  let p1 := loadTradingSymbols_settled (Response status (Some selected)) p in
  selectedSymbols p1 = selected ∧ performanceSymbol p1 = selected ∧
  selectedList p1 = renderSelected selected ∧
  inflight p1 = inflight p ++ [GetSymbols] ∧ alerts p1 = alerts p.
Proof.
  unfold loadTradingSymbols_settled, updateSelectedSymbolsList. cbv zeta.
  simpl. by destruct selected.
Qed.

(** X26.  From the page as served, once the selection and then the universe
    have arrived (with any status), the stored collections are the two
    responses, the shown list is the universe without the selected
    symbols and disjoint from them, the chooser and the selected list
    show the selection, and only the configuration request is left in
    flight. *)
Theorem load_sequence_result form selected universe status1 status2 :
  let p := steps [Settle 1 (SymbolsReply (Response status1 (Some selected)));
                  Settle 1 (SymbolsReply (Response status2 (Some universe)))]
                 (onDOMContentLoaded (servedPage form)) in
  selectedSymbols p = selected ∧
  availableSymbols p = universe ∧
  shownAvailable p
    = List.filter (λ symbol, negb (JS.arrayIncludes selected symbol)) universe ∧
  disjointLists (shownAvailable p) (selectedSymbols p) ∧
  performanceSymbol p = selected ∧
  selectedList p = renderSelected selected ∧
  inflight p = [GetConfig].
Proof.
  cbv zeta. unfold steps. cbn [fold_left].
  destruct (start_fields form) as (H0 & _).
  set (p0 := onDOMContentLoaded (servedPage form)) in *. clearbody p0.
  rewrite (settle_selection _ p0 H0).
  destruct (selection_settled_fields status1 selected (set_inflight [GetConfig] p0))
    as (Hs1 & Hc1 & Hl1 & Hi1 & _).
  set (p1 := loadTradingSymbols_settled _ _) in *. clearbody p1.
  rewrite (settle_universe _ p1 Hi1).
  destruct (loadedPage_fields universe (set_inflight [GetConfig] p1)) as (Ha & Hs & Hsh).
  unfold loadedPage in Ha, Hs, Hsh.
  change (loadAvailableSymbols_settled (Response status2 (Some universe)) (set_inflight [GetConfig] p1))
    with (loadAvailableSymbols_settled (Response 200 (Some universe)) (set_inflight [GetConfig] p1)).
  rewrite Ha, Hs, Hsh. simpl. rewrite Hs1.
  split; [done|]. split; [done|]. split; [done|].
  split.
  { intros s. rewrite list_elem_of_In, filter_In, negb_true_iff, arrayIncludes_false. tauto. }
  unfold loadAvailableSymbols_settled, updateAvailableSymbolsList, hideLoading. cbv zeta.
  destruct (_ =? _)%nat; simpl; by rewrite Hc1, Hl1.
Qed.


(** X28.  After a click on run-strategy and the answer to it: on success the
    performance section is reset to its loading state and one performance
    request for the symbol is in flight; on every other outcome nothing is
    requested, the performance section is as before and one alert is
    added; in both cases the button is no longer marked as loading. *)
Theorem run_strategy_outcome (r : FetchResult Ack) p :
  currentSymbol p ≠ EmptyString →
  let p' := steps [ClickRunStrategy; Settle (length (inflight p)) (AckReply r)] p in
  if acknowledged r then
    inflight p' = inflight p ++ [GetPerformance (currentSymbol p)] ∧
    currentPosition p' = PanelLoading ∧
    tradeHistory p' = [LoadingHistoryRow] ∧
    loading p' = loading p ∖ {["run-strategy"]} ∪ {["performance-stats"]}
  else
    inflight p' = inflight p ∧ perfView p' = perfView p ∧
    loading p' = loading p ∖ {["run-strategy"]} ∧
    length (alerts p') = S (length (alerts p)).
Proof.
  intros Hc. cbv zeta. unfold steps. cbn [fold_left step].
  apply String.eqb_neq in Hc. rewrite Hc. simpl.
  unfold settle. change (inflight (runStrategy (currentSymbol p) p))
    with (inflight p ++ [PostRunStrategy (currentSymbol p)]).
  rewrite lookup_last, delete_last.
  assert (∀ X : gset string, (X ∪ {["run-strategy"]}) ∖ {["run-strategy"]}
                             = X ∖ {["run-strategy"]}) as Hset.
  { intros X. apply set_eq. intros y.
    rewrite !elem_of_difference, elem_of_union, elem_of_singleton. tauto. }
  destruct r as [|status [data|]]; simpl.
  - rewrite Hset, length_app. simpl. repeat split; try done; lia.
  - destruct (success data); simpl.
    + by rewrite Hset.
    + rewrite Hset, length_app. simpl. repeat split; try done; lia.
  - rewrite Hset, length_app. simpl. repeat split; try done; lia.
Qed.

Lemma run_strategy_outcome_witness :
  let p := set_currentSymbol "BTCUSDT" readyPage in
  let p' := steps [ClickRunStrategy;
                   Settle (length (inflight p)) (AckReply (Response 200 (Some exampleAck)))]
                  p in
  if acknowledged (Response 200 (Some exampleAck)) then
    inflight p' = inflight p ++ [GetPerformance (currentSymbol p)] ∧
    currentPosition p' = PanelLoading ∧
    tradeHistory p' = [LoadingHistoryRow] ∧
    loading p' = loading p ∖ {["run-strategy"]} ∪ {["performance-stats"]}
  else
    inflight p' = inflight p ∧ perfView p' = perfView p ∧
    loading p' = loading p ∖ {["run-strategy"]} ∧
    length (alerts p') = S (length (alerts p)).
Proof.
  apply (run_strategy_outcome (Response 200 (Some exampleAck))
           (set_currentSymbol "BTCUSDT" readyPage)).
  intros H. discriminate H.
Defined.
End Composition.
